(** * HipChat notification module of jenkins-job-builder

    A shallow embedding of [jenkins_jobs/modules/hipchat_notif.py]:
    [HipChat.gen_xml] reads the ['hipchat'] entry of a job description and
    extends the job's XML tree with a job property and a publisher.

    - YAML values are Python objects: [None], booleans, integers, strings,
      and (for the ['hipchat'] entry itself) a mapping of option names to
      values.  Strings are sequences of characters whose cased characters
      are the ASCII letters.  A YAML null under a key is the value [None]:
      [get(k)] returns [None] for it as for a missing key, [get(k, x)]
      returns [None] for it and [x] for a missing key.
    - The XML tree is an [xml.etree.ElementTree] element.  The code keeps
      references to elements inside the tree and mutates the tree through
      them; a reference is modelled as the path of child indices leading
      from the tree's root to the element, and the tree is the state.
    - [gen_xml] runs in a state-and-exception monad: the state is the tree
      and the log, the exceptions are Python's [AttributeError] (a value
      without [get]) and [ValueError] ([str] of an integer with more
      digits than the interpreter allows).
    - [str] of an integer depends on the interpreter: since Python 3.11
      [str] raises [ValueError] when the integer has more than
      [sys.int_max_str_digits] digits (4300 unless set otherwise, 0 for
      no limit), and earlier interpreters have no limit.  The limit is a
      parameter of [gen_xml]. *)

From Stdlib Require Import ZArith Ascii String List Lia.
From stdpp Require Import base option list strings pretty gmap.

Local Open Scope string_scope.
Local Open Scope list_scope.

(** ** Python values *)

Inductive Scalar : Type :=
  | PNone
  | PBool (b : bool)
  | PInt (z : Z)
  | PStr (s : string).

Inductive Value : Type :=
  | VScalar (v : Scalar)
  | VDict (d : gmap string Scalar).

#[global] Instance Scalar_eq_dec : EqDecision Scalar.
Proof. solve_decision. Defined.

#[global] Instance Scalar_inhabited : Inhabited Scalar := populate PNone.

(** [bool(v)] *)
Definition truthy (v : Scalar) : bool :=
  match v with
  | PNone => false
  | PBool b => b
  | PInt z => negb (z =? 0)%Z
  | PStr s => negb (String.eqb s "")
  end.

Definition truthy_value (v : Value) : bool :=
  match v with
  | VScalar s => truthy s
  | VDict d => negb (bool_decide (d = ∅))
  end.

(** The string [str(v)] returns, when it returns one. *)
Definition str (v : Scalar) : string :=
  match v with
  | PNone => "None"
  | PBool true => "True"
  | PBool false => "False"
  | PInt z => pretty z
  | PStr s => s
  end.

(** Whether [str(v)] raises [ValueError] under the limit
    [int_max_str_digits]: [v] is an integer of more than
    [int_max_str_digits] digits, the sign not counted, and the limit is
    not 0. *)
Definition str_raises (int_max_str_digits : Z) (v : Scalar) : bool :=
  match v with
  | PInt z =>
      (0 <? int_max_str_digits)%Z
      && (10 ^ int_max_str_digits <=? Z.abs z)%Z
  | _ => false
  end.

(** [v is not None] *)
Definition is_not_None (v : Scalar) : bool :=
  match v with
  | PNone => false
  | _ => true
  end.

(** [s.lower()] on ASCII text: the letters [A] to [Z] become [a] to [z],
    every other character is kept.  On text that is not ASCII Python's
    [str.lower] also lowers other letters; the theorems that depend on
    it take [ascii_only] as a hypothesis. *)
Definition lower_ascii (c : ascii) : ascii :=
  let n := nat_of_ascii c in
  if (65 <=? n)%nat && (n <=? 90)%nat then ascii_of_nat (n + 32) else c.

Fixpoint lower (s : string) : string :=
  match s with
  | EmptyString => EmptyString
  | String c s' => String (lower_ascii c) (lower s')
  end.

(** [d.get(k)] and [d.get(k, default)] on a dictionary. *)
Definition dict_get (d : gmap string Scalar) (k : string) (dflt : Scalar)
  : Scalar :=
  default dflt (d !! k).

(** [data.get('hipchat')]: the job description is a dictionary. *)
Definition data_get (data : gmap string Value) (k : string) : Value :=
  default (VScalar PNone) (data !! k).

(** ** ElementTree elements *)

#[local] Set Warnings "-register-all".

Inductive Element : Type :=
  mkElement {
    tag : string;
    attrib : list (string * string);
    text : Scalar;
    tail : Scalar;
    children : list Element
  }.

(** A reference to an element: the child indices from the root. *)
Definition Ref : Type := list nat.

(** [Element(tag)]: no attributes, no text, no children. *)
Definition new_element (t : string) : Element :=
  mkElement t [] PNone PNone [].

Definition set_children (e : Element) (cs : list Element) : Element :=
  mkElement (tag e) (attrib e) (text e) (tail e) cs.

Definition with_text (v : Scalar) (e : Element) : Element :=
  mkElement (tag e) (attrib e) v (tail e) (children e).

Definition append_child (c : Element) (e : Element) : Element :=
  set_children e (children e ++ [c]).

Fixpoint get_elem (r : Ref) (e : Element) : option Element :=
  match r with
  | [] => Some e
  | i :: r' =>
      match children e !! i with
      | Some c => get_elem r' c
      | None => None
      end
  end.

Fixpoint update (r : Ref) (f : Element -> Element) (e : Element) : Element :=
  match r with
  | [] => f e
  | i :: r' => set_children e (alter (update r' f) i (children e))
  end.

(** Index of the first element of [cs] whose tag is [t]. *)
Fixpoint find_tag (t : string) (cs : list Element) : option nat :=
  match cs with
  | [] => None
  | c :: cs' =>
      if String.eqb (tag c) t then Some 0%nat
      else option_map S (find_tag t cs')
  end.

(** ** The state and exception monad *)

Inductive PyExn : Type :=
  | AttributeError
  | ValueError.

Inductive Result (A : Type) : Type :=
  | Ok (a : A)
  | Raise (e : PyExn).
Arguments Ok {A} a.
Arguments Raise {A} e.

Record Env : Type :=
  mkEnv {
    doc : Element;
    log : list string
  }.

Definition M (A : Type) : Type := Env -> Env * Result A.

Definition ret {A} (a : A) : M A := fun s => (s, Ok a).

Definition bind {A B} (m : M A) (f : A -> M B) : M B :=
  fun s =>
    match m s with
    | (s', Ok a) => f a s'
    | (s', Raise e) => (s', Raise e)
    end.

Definition raise {A} (e : PyExn) : M A := fun s => (s, Raise e).

#[global] Instance M_ret : MRet M := @ret.
#[global] Instance M_bind : MBind M := fun A B f m => bind m f.

(** [if c: body] *)
Definition when (c : bool) (body : M unit) : M unit :=
  if c then body else ret tt.

(** [o.get(k, default)]: only a dictionary has the method. *)
Definition get (o : Value) (k : string) (dflt : Scalar) : M Scalar :=
  match o with
  | VDict d => ret (dict_get d k dflt)
  | VScalar _ => raise AttributeError
  end.

(** [str(v)] under the limit [int_max_str_digits]. *)
Definition py_str (int_max_str_digits : Z) (v : Scalar) : M string :=
  if str_raises int_max_str_digits v then raise ValueError
  else ret (str v).

(** [parent.find(t)]: the first direct child with tag [t], or [None]. *)
Definition find (parent : Ref) (t : string) : M (option Ref) :=
  fun s =>
    match get_elem parent (doc s) with
    | Some e =>
        (s, Ok (option_map (fun i => parent ++ [i]) (find_tag t (children e))))
    | None => (s, Ok None)
    end.

(** [XML.SubElement(parent, t)]: a new element appended to [parent]. *)
Definition SubElement (parent : Ref) (t : string) : M Ref :=
  fun s =>
    let n := match get_elem parent (doc s) with
             | Some e => length (children e)
             | None => 0%nat
             end in
    (mkEnv (update parent (append_child (new_element t)) (doc s)) (log s),
     Ok (parent ++ [n])).

(** [e.text = v] *)
Definition set_text (e : Ref) (v : Scalar) : M unit :=
  fun s => (mkEnv (update e (with_text v) (doc s)) (log s), Ok tt).

(** [logger.warn(msg)] *)
Definition logger_warn (msg : string) : M unit :=
  fun s => (mkEnv (doc s) (log s ++ [msg]), Ok tt).

(** ** [HipChat.gen_xml] *)

Definition HipChatJobProperty : string :=
  "jenkins.plugins.hipchat.HipChatNotifier_-HipChatJobProperty".

Definition HipChatNotifier : string :=
  "jenkins.plugins.hipchat.HipChatNotifier".

Section Interpreter.

(** [sys.int_max_str_digits] of the interpreter that runs the call. *)
Variable int_max_str_digits : Z.

(** [if hipchat.get(k) is not None:
       XML.SubElement(pdefhip, t).text = str(hipchat.get(k)).lower()]
    The right-hand side of the assignment is evaluated before its
    target, so [str] is called before [SubElement]. *)
Definition notify_field (hipchat : Value) (pdefhip : Ref) (k t : string)
  : M unit :=
  v ← get hipchat k PNone;
  when (is_not_None v)
    (v' ← get hipchat k PNone;
     value ← py_str int_max_str_digits v';
     e ← SubElement pdefhip t;
     set_text e (PStr (lower value))).

Definition gen_xml (xml_parent : Ref) (data : gmap string Value) : M unit :=
  let hipchat := data_get data "hipchat" in
  if negb (truthy_value hipchat) then ret tt else
  enabled ← get hipchat "enabled" (PBool true);
  if negb (truthy enabled) then ret tt else
  found ← find xml_parent "properties";
  properties ← match found with
                | Some p => ret p
                | None => SubElement xml_parent "properties"
                end;
  pdefhip ← SubElement properties HipChatJobProperty;
  room ← get hipchat "room" (PStr "");
  e ← SubElement pdefhip "room";
  set_text e room;;
  sn ← get hipchat "start-notify" PNone;
  when (truthy sn)
    (logger_warn "start-notify is deprecated please use notify-start");;
  sn ← get hipchat "start-notify" PNone;
  ns ← get hipchat "notify-start" PNone;
  when (is_not_None sn || is_not_None ns)
    (ns' ← get hipchat "notify-start" (PStr "");
     value ← py_str int_max_str_digits ns';
     value ← (if negb (String.eqb value "") then ret value
              else sn' ← get hipchat "start-notify" (PStr "");
                   py_str int_max_str_digits sn');
     let value := lower value in
     let value := if String.eqb value "" then "false" else value in
     e ← SubElement pdefhip "startNotification";
     set_text e (PStr value));;
  notify_field hipchat pdefhip "notify-success" "notifySuccess";;
  notify_field hipchat pdefhip "notify-aborted" "notifyAborted";;
  notify_field hipchat pdefhip "notify-not-built" "notifyNotBuilt";;
  notify_field hipchat pdefhip "notify-unstable" "notifyUnstable";;
  notify_field hipchat pdefhip "notify-failure" "notifyFailure";;
  notify_field hipchat pdefhip "notify-back-to-normal" "notifyBackToNormal";;
  found ← find xml_parent "publishers";
  publishers ← match found with
                | Some p => ret p
                | None => SubElement xml_parent "publishers"
                end;
  hippub ← SubElement publishers HipChatNotifier;
  e ← SubElement hippub "room";
  set_text e (PStr "").

End Interpreter.

(** The job's tree is the root of the state: [xml_parent] is the root. *)
Definition root : Ref := [].

(** The call on an interpreter whose limit is [int_max_str_digits]. *)
Definition run_at (int_max_str_digits : Z) (data : gmap string Value)
    (s : Env) : Env * Result unit :=
  gen_xml int_max_str_digits root data s.

(** The call on an interpreter that renders every integer (no limit). *)
Definition run (data : gmap string Value) (s : Env) : Env * Result unit :=
  run_at 0 data s.

(** ** What the call builds

    The property and the publisher as complete elements, and their
    attachment to a section of the job's tree. *)

Definition text_element (t : string) (v : Scalar) : Element :=
  mkElement t [] v PNone [].

Definition add_children (cs : list Element) (e : Element) : Element :=
  set_children e (children e ++ cs).

(** The string of an option's value, empty when the option is missing. *)
Definition str_of (d : gmap string Scalar) (k : string) : string :=
  match d !! k with
  | Some v => str v
  | None => ""
  end.

(** The value of [startNotification]: [notify-start] first, then
    [start-notify], then ["false"]. *)
Definition start_value (d : gmap string Scalar) : string :=
  if negb (String.eqb (str_of d "notify-start") "")
  then lower (str_of d "notify-start")
  else if negb (String.eqb (str_of d "start-notify") "")
       then lower (str_of d "start-notify")
       else "false".

Definition start_given (d : gmap string Scalar) : bool :=
  is_not_None (dict_get d "start-notify" PNone)
  || is_not_None (dict_get d "notify-start" PNone).

Definition start_elems (d : gmap string Scalar) : list Element :=
  if start_given d
  then [text_element "startNotification" (PStr (start_value d))]
  else [].

Definition notify_elems (d : gmap string Scalar) (k t : string)
  : list Element :=
  match dict_get d k PNone with
  | PNone => []
  | v => [text_element t (PStr (lower (str v)))]
  end.

Definition notify_keys : list (string * string) :=
  [("notify-success", "notifySuccess");
   ("notify-aborted", "notifyAborted");
   ("notify-not-built", "notifyNotBuilt");
   ("notify-unstable", "notifyUnstable");
   ("notify-failure", "notifyFailure");
   ("notify-back-to-normal", "notifyBackToNormal")].

Definition property_children (d : gmap string Scalar) : list Element :=
  text_element "room" (dict_get d "room" (PStr ""))
  :: start_elems d
  ++ concat (map (fun kt => notify_elems d (fst kt) (snd kt)) notify_keys).

Definition property_block (d : gmap string Scalar) : Element :=
  mkElement HipChatJobProperty [] PNone PNone (property_children d).

Definition publisher_block : Element :=
  mkElement HipChatNotifier [] PNone PNone [text_element "room" (PStr "")].

(** Append [blk] to the first section tagged [sec] of [e], or to a new
    section appended to [e] when there is none. *)
Definition attach (sec : string) (blk : Element) (e : Element) : Element :=
  match find_tag sec (children e) with
  | Some i => set_children e (alter (append_child blk) i (children e))
  | None => append_child (mkElement sec [] PNone PNone [blk]) e
  end.

Definition warnings (d : gmap string Scalar) : list string :=
  if truthy (dict_get d "start-notify" PNone)
  then ["start-notify is deprecated please use notify-start"]
  else [].

(** Whether the call goes past its first test, for a mapping of options. *)
Definition enabled (d : gmap string Scalar) : bool :=
  negb (bool_decide (d = ∅)) && truthy (dict_get d "enabled" (PBool true)).

(** ** Reading the tree back *)

(** The first element of [cs] tagged [t], as [Element.find] returns it. *)
Definition find_child (t : string) (cs : list Element) : option Element :=
  match find_tag t cs with
  | Some i => cs !! i
  | None => None
  end.

(** The text of the field [t] of a block; [None] when the block has no
    child tagged [t]. *)
Definition field (t : string) (e : Element) : option Scalar :=
  text <$> find_child t (children e).

(** The block a call has just appended to the section [sec] of the
    tree: the last child of the first section tagged [sec]. *)
Definition added (sec : string) (e : Element) : option Element :=
  match find_child sec (children e) with
  | Some c => last (children c)
  | None => None
  end.





(** ** The tree while a block is filled *)

(** The state in which the block [x] under construction is the last child
    of the element at [r]; [e0] is the tree before [x] was appended. *)
Definition building (r : Ref) (e0 x : Element) (s : Env) : Prop :=
  is_Some (get_elem r e0) /\ doc s = update r (append_child x) e0.

Definition block_ref (r : Ref) (e0 : Element) : Ref :=
  r ++ [match get_elem r e0 with
        | Some b => length (children b)
        | None => 0%nat
        end].

Definition built (r : Ref) (e0 x : Element) (l : list string) : Env :=
  mkEnv (update r (append_child x) e0) l.

(** The section a block goes to, and the tree once the section is
    there. *)
Definition section_ref (sec : string) (e : Element) : Ref :=
  match find_tag sec (children e) with
  | Some i => [i]
  | None => [length (children e)]
  end.

Definition section_tree (sec : string) (e : Element) : Element :=
  match find_tag sec (children e) with
  | Some _ => e
  | None => append_child (new_element sec) e
  end.

(** ** What a call leaves in place *)

(** [e'] carries what [e] carried: the same tag, attributes, text and
    tail, and at least as many children. *)
Definition same_node (e e' : Element) : Prop :=
  tag e' = tag e /\ attrib e' = attrib e /\ text e' = text e
  /\ tail e' = tail e /\ (length (children e) <= length (children e'))%nat.

(** Every element of [e] is found in [e'] at the same place and is the
    same node there. *)
Definition preserved (e e' : Element) : Prop :=
  forall (p : Ref) (e0 : Element),
    get_elem p e = Some e0 ->
    exists e0', get_elem p e' = Some e0' /\ same_node e0 e0'.

(** ** Jobs and outcomes the claims speak of *)

(** A job description whose ['hipchat'] entry is the options [d]. *)
Definition job (d : gmap string Scalar) : gmap string Value :=
  {["hipchat" := VDict d]}.

(** A job tree with no section yet, and an empty log. *)
Definition empty_job : Env := mkEnv (new_element "project") [].

(** A job tree that has both sections already. *)
Definition sectioned_job : Env :=
  mkEnv (mkElement "project" [] PNone PNone
           [new_element "actions"; new_element "properties";
            new_element "scm"; new_element "publishers"]) [].

(** Options of the examples. *)
Definition start_both_options : gmap string Scalar :=
  {["start-notify" := PBool true; "notify-start" := PBool false]}.

Definition notify_options : gmap string Scalar :=
  {["room" := PStr "Dev"; "notify-success" := PBool true;
    "notify-failure" := PBool false]}.

Definition zero_options : gmap string Scalar :=
  {["start-notify" := PStr "0"]}.

Definition malformed_options : gmap string Scalar :=
  {["notify-success" := PInt 7; "notify-failure" := PStr "Sometimes"]}.


(** The option [k] carries a value. *)
Definition present (d : gmap string Scalar) (k : string) : Prop :=
  exists v, d !! k = Some v /\ v ≠ PNone.

(** The call writes ["false"] in [startNotification]. *)
Definition emits_false (data : gmap string Value) (s : Env) : Prop :=
  exists s' blk,
    run data s = (s', Ok tt)
    /\ added "properties" (doc s') = Some blk
    /\ field "startNotification" blk = Some (PStr "false").

(** The call fails. *)
Definition raises (data : gmap string Value) (s : Env) : Prop :=
  exists s' e, run data s = (s', Raise e).

(** ** The options, the fields and the log *)

(** The keys [gen_xml] reads from the options. *)
Definition option_keys : list string :=
  ["enabled"; "room"; "start-notify"; "notify-start"; "notify-success";
   "notify-aborted"; "notify-not-built"; "notify-unstable"; "notify-failure";
   "notify-back-to-normal"].

(** The keys that switch a notification. *)
Definition switch_keys : list string :=
  ["start-notify"; "notify-start"; "notify-success"; "notify-aborted";
   "notify-not-built"; "notify-unstable"; "notify-failure";
   "notify-back-to-normal"].

(** The tags of the property's fields, in the order [gen_xml] writes
    them. *)
Definition field_order : list string :=
  ["room"; "startNotification"; "notifySuccess"; "notifyAborted";
   "notifyNotBuilt"; "notifyUnstable"; "notifyFailure"; "notifyBackToNormal"].


(** Every switch of [d] that is set is set to a boolean. *)
Definition boolean_switches (d : gmap string Scalar) : Prop :=
  forall k v, k ∈ switch_keys -> d !! k = Some v -> exists b, v = PBool b.

(** ** The fields written before [str] raises *)

(** No switch of [d] holds an integer [str] cannot render under the
    limit. *)
Definition renderable (int_max_str_digits : Z) (d : gmap string Scalar)
  : Prop :=
  forall k v, k ∈ switch_keys -> d !! k = Some v ->
              str_raises int_max_str_digits v = false.

(** What the statement of [startNotification] adds to the property;
    [None] when [str] raises in it.  [str] of [start-notify] is called
    only when the string of [notify-start] is empty. *)
Definition start_fill (int_max_str_digits : Z) (d : gmap string Scalar)
  : option (list Element) :=
  if start_given d then
    if str_raises int_max_str_digits (dict_get d "notify-start" (PStr ""))
    then None
    else if negb (String.eqb (str_of d "notify-start") "")
         then Some (start_elems d)
         else if str_raises int_max_str_digits
                   (dict_get d "start-notify" (PStr ""))
              then None
              else Some (start_elems d)
  else Some [].

(** What the statement of the key [k] adds; [None] when [str] raises. *)
Definition notify_fill (int_max_str_digits : Z) (d : gmap string Scalar)
    (k t : string) : option (list Element) :=
  if str_raises int_max_str_digits (dict_get d k PNone) then None
  else Some (notify_elems d k t).

(** The fields of the statements that ran, and whether all of them
    ran. *)
Fixpoint filled (steps : list (option (list Element)))
  : list Element * bool :=
  match steps with
  | [] => ([], true)
  | Some fs :: steps' => let (fs', ok) := filled steps' in (fs ++ fs', ok)
  | None :: _ => ([], false)
  end.

Definition property_fill (int_max_str_digits : Z) (d : gmap string Scalar)
  : list Element * bool :=
  filled (Some [text_element "room" (dict_get d "room" (PStr ""))]
          :: start_fill int_max_str_digits d
          :: map (fun kt => notify_fill int_max_str_digits d (fst kt) (snd kt))
               notify_keys).

(** The property as the call leaves it. *)
Definition property_written (int_max_str_digits : Z)
    (d : gmap string Scalar) : Element :=
  mkElement HipChatJobProperty [] PNone PNone
    (property_fill int_max_str_digits d).1.

(** The tree and the result of an enabled call. *)
Definition enabled_outcome (int_max_str_digits : Z) (d : gmap string Scalar)
    (s : Env) : Env * Result unit :=
  if (property_fill int_max_str_digits d).2
  then (mkEnv (attach "publishers" publisher_block
                 (attach "properties"
                    (property_written int_max_str_digits d) (doc s)))
              (log s ++ warnings d),
        Ok tt)
  else (mkEnv (attach "properties"
                 (property_written int_max_str_digits d) (doc s))
              (log s ++ warnings d),
        Raise ValueError).

(** An element with no attribute, no tail and no child. *)
Definition leaf (e : Element) : Prop :=
  attrib e = [] /\ tail e = PNone /\ children e = [].


(** Options of more examples. *)
Definition unknown_options : gmap string Scalar :=
  {["colour" := PStr "red"]}.

Definition empty_string_options : gmap string Scalar :=
  {["start-notify" := PStr ""]}.

Definition null_start_options : gmap string Scalar :=
  {["start-notify" := PBool true; "notify-start" := PNone]}.

Definition shouting_options : gmap string Scalar :=
  {["room" := PStr "Dev"; "notify-start" := PStr "TRUE";
    "notify-failure" := PStr "Yes"]}.

(** ** Long integers, and text that is ASCII *)

(** The limit of an interpreter that was not told another one. *)
Definition default_limit : Z := 4300.

(** An integer of 4301 digits. *)
Definition long_integer : Z := 10 ^ 4300.

Definition long_integer_options : gmap string Scalar :=
  {["notify-success" := PInt long_integer]}.

(** The call fails, on an interpreter with the limit. *)
Definition raises_at (int_max_str_digits : Z) (data : gmap string Value)
    (s : Env) : Prop :=
  exists s' e, run_at int_max_str_digits data s = (s', Raise e).

(** The key [k] holds an integer [str] cannot render. *)
Definition too_long (int_max_str_digits : Z) (d : gmap string Scalar)
    (k : string) : Prop :=
  exists v, d !! k = Some v /\ str_raises int_max_str_digits v = true.

(** [str] raises in an enabled call: [notify-start] is too long, or its
    string is empty and [start-notify] is too long, or the value of one
    of the six [notify-*] keys is too long. *)
Definition str_fails (int_max_str_digits : Z) (d : gmap string Scalar)
  : Prop :=
  too_long int_max_str_digits d "notify-start"
  \/ (str_of d "notify-start" = ""
      /\ too_long int_max_str_digits d "start-notify")
  \/ exists k t, (k, t) ∈ notify_keys /\ too_long int_max_str_digits d k.

(** Every character of [s] is an ASCII character. *)
Definition ascii_only (s : string) : bool :=
  forallb (fun c => (nat_of_ascii c <? 128)%nat) (list_ascii_of_string s).

(** No character of [s] is one of the letters [A] to [Z]. *)
Definition upper_case_free (s : string) : bool :=
  forallb (fun c => negb ((65 <=? nat_of_ascii c)%nat
                          && (nat_of_ascii c <=? 90)%nat))
    (list_ascii_of_string s).

(** The string of every switch of [d] that is set is ASCII text, on
    which [lower] is Python's [str.lower]. *)
Definition ascii_switches (d : gmap string Scalar) : Prop :=
  forall k v, k ∈ switch_keys -> d !! k = Some v -> ascii_only (str v) = true.

(** * Properties *)

(** ** Paths and updates *)

Lemma set_children_children (e : Element) : set_children e (children e) = e.
Proof. by destruct e. Qed.

Lemma add_children_nil (e : Element) : add_children [] e = e.
Proof. unfold add_children. rewrite app_nil_r. apply set_children_children. Qed.

Lemma get_elem_app (r q : Ref) (e : Element) :
  get_elem (r ++ q) e = get_elem r e ≫= get_elem q.
Proof.
  revert e. induction r as [|i r IH]; intros e; simpl; [done|].
  destruct (children e !! i); simpl; auto.
Qed.

Lemma update_ext (r : Ref) (F G : Element -> Element) (e b : Element) :
  get_elem r e = Some b -> F b = G b -> update r F e = update r G e.
Proof.
  revert e. induction r as [|i r IH]; intros e; simpl.
  - by intros [= ->].
  - destruct (children e !! i) as [c|] eqn:Hc; [|done].
    intros Hb HFG. f_equal. apply list_alter_ext; [|done].
    intros c' Hc'. rewrite Hc in Hc'. injection Hc' as <-. by apply IH.
Qed.

Lemma update_update (r : Ref) (F G : Element -> Element) (e : Element) :
  update r F (update r G e) = update r (F ∘ G) e.
Proof.
  revert e. induction r as [|i r IH]; intros e; simpl; [done|].
  unfold set_children; simpl. f_equal.
  rewrite list_alter_alter_eq. apply list_alter_ext; [|done].
  intros c _. apply IH.
Qed.

Lemma update_app (r q : Ref) (F : Element -> Element) (e : Element) :
  update (r ++ q) F e = update r (update q F) e.
Proof.
  revert e. induction r as [|i r IH]; intros e; simpl; [done|].
  f_equal. apply list_alter_ext; [|done]. intros c _. apply IH.
Qed.

Lemma get_elem_update (r : Ref) (F : Element -> Element) (e b : Element) :
  get_elem r e = Some b -> get_elem r (update r F e) = Some (F b).
Proof.
  revert e. induction r as [|i r IH]; intros e; simpl.
  - by intros [= ->].
  - destruct (children e !! i) as [c|] eqn:Hc; [|done]. intros Hb.
    rewrite list_lookup_alter_eq, Hc. simpl. by apply IH.
Qed.

Lemma update_last (F : Element -> Element) (x b : Element) :
  update [length (children b)] F (append_child x b) = append_child (F x) b.
Proof.
  unfold append_child, set_children; simpl. f_equal.
  rewrite alter_app_r_alt by lia. by rewrite Nat.sub_diag.
Qed.

(** Filling the last child of an element is appending the filled child. *)
Lemma update_appended (r : Ref) (F : Element -> Element) (x e b : Element) :
  get_elem r e = Some b ->
  update (r ++ [length (children b)]) F (update r (append_child x) e)
  = update r (append_child (F x)) e.
Proof.
  intros Hb. rewrite update_app, update_update.
  apply (update_ext _ _ _ _ _ Hb). simpl. apply update_last.
Qed.

Lemma get_elem_appended (r : Ref) (x e b : Element) :
  get_elem r e = Some b ->
  get_elem (r ++ [length (children b)]) (update r (append_child x) e) = Some x.
Proof.
  intros Hb. rewrite get_elem_app, (get_elem_update _ _ _ _ Hb). simpl.
  rewrite lookup_app_r by lia. by rewrite Nat.sub_diag.
Qed.

(** ** Running the statements of [gen_xml] *)

Lemma bind_run {A B} (m : M A) (k : A -> M B) (s : Env) :
  (m ≫= k) s = match m s with
               | (s', Ok a) => k a s'
               | (s', Raise e) => (s', Raise e)
               end.
Proof. reflexivity. Qed.

(** [XML.SubElement(block, t).text = v] adds a complete field. *)
Lemma SubElement_text_run (r : Ref) (e0 x : Element) (s : Env)
    (t : string) (v : Scalar) :
  building r e0 x s ->
  (e ← SubElement (block_ref r e0) t; set_text e v) s
  = (built r e0 (add_children [text_element t v] x) (log s), Ok tt).
Proof.
  intros [[b Hb] Hdoc]. unfold block_ref. rewrite Hb.
  rewrite bind_run. unfold SubElement, set_text, built. simpl.
  rewrite Hdoc, (get_elem_appended _ _ _ _ Hb).
  rewrite (update_appended _ _ _ _ _ Hb).
  rewrite update_app, (update_appended _ _ _ _ _ Hb).
  do 4 f_equal. apply update_last.
Qed.

Lemma bind_ok {A B} (m : M A) (k : A -> M B) (s s' : Env) (a : A) :
  m s = (s', Ok a) -> (m ≫= k) s = k a s'.
Proof. intros H. by rewrite bind_run, H. Qed.

Lemma ret_bind {A B} (a : A) (k : A -> M B) : (ret a ≫= k) = k a.
Proof. reflexivity. Qed.

Lemma get_step {B} (d : gmap string Scalar) (k : string) (dflt : Scalar)
    (K : Scalar -> M B) :
  (get (VDict d) k dflt ≫= K) = K (dict_get d k dflt).
Proof. reflexivity. Qed.

Lemma building_built (r : Ref) (e0 x : Element) (l : list string) :
  is_Some (get_elem r e0) -> building r e0 x (built r e0 x l).
Proof. by split. Qed.

Lemma add_children_add_children (l1 l2 : list Element) (x : Element) :
  add_children l2 (add_children l1 x) = add_children (l1 ++ l2) x.
Proof. unfold add_children, set_children; simpl. by rewrite app_assoc. Qed.

Lemma field_run (r : Ref) (e0 x : Element) (l : list string)
    (t : string) (v : Scalar) :
  is_Some (get_elem r e0) ->
  (e ← SubElement (block_ref r e0) t; set_text e v) (built r e0 x l)
  = (built r e0 (add_children [text_element t v] x) l, Ok tt).
Proof.
  intros H. by rewrite (SubElement_text_run r e0 x) by by apply building_built.
Qed.

Lemma lower_empty (s : string) : String.eqb (lower s) "" = String.eqb s "".
Proof. by destruct s. Qed.

Lemma py_str_ok (limit : Z) (v : Scalar) {B} (K : string -> M B) (s : Env) :
  str_raises limit v = false ->
  (py_str limit v ≫= K) s = K (str v) s.
Proof. intros H. unfold py_str. by rewrite H. Qed.

Lemma py_str_raises (limit : Z) (v : Scalar) {B} (K : string -> M B)
    (s : Env) :
  str_raises limit v = true ->
  (py_str limit v ≫= K) s = (s, Raise ValueError).
Proof. intros H. unfold py_str. by rewrite H. Qed.

Lemma str_of_dict_get (d : gmap string Scalar) (k : string) :
  str (dict_get d k (PStr "")) = str_of d k.
Proof. unfold str_of, dict_get. by destruct (d !! k). Qed.

(** The text computed from a string of [notify-start] that is not
    empty, and from the string of [start-notify] otherwise. *)
Lemma start_value_first (d : gmap string Scalar) :
  String.eqb (str_of d "notify-start") "" = false ->
  (if String.eqb (lower (str_of d "notify-start")) "" then "false"
   else lower (str_of d "notify-start"))
  = start_value d.
Proof. intros H. unfold start_value. by rewrite lower_empty, H. Qed.

Lemma start_value_second (d : gmap string Scalar) :
  String.eqb (str_of d "notify-start") "" = true ->
  (if String.eqb (lower (str_of d "start-notify")) "" then "false"
   else lower (str_of d "start-notify"))
  = start_value d.
Proof.
  intros H. unfold start_value. rewrite lower_empty, H. simpl.
  by destruct (String.eqb (str_of d "start-notify") "").
Qed.

Lemma room_step (limit : Z) (d : gmap string Scalar) (r : Ref)
    (e0 x : Element) (l : list string) (K : M unit) :
  is_Some (get_elem r e0) ->
  (room ← get (VDict d) "room" (PStr "");
   e ← SubElement (block_ref r e0) "room";
   set_text e room;;
   K) (built r e0 x l)
  = K (built r e0
         (add_children [text_element "room" (dict_get d "room" (PStr ""))] x)
         l).
Proof.
  intros H. rewrite get_step.
  transitivity
    (((e ← SubElement (block_ref r e0) "room";
       set_text e (dict_get d "room" (PStr ""))) ≫= fun _ => K)
       (built r e0 x l)); [reflexivity|].
  by erewrite bind_ok by by apply field_run.
Qed.

Lemma warn_step (d : gmap string Scalar) (r : Ref) (e0 x : Element)
    (l : list string) (K : M unit) :
  (sn ← get (VDict d) "start-notify" PNone;
   when (truthy sn)
     (logger_warn "start-notify is deprecated please use notify-start");;
   K) (built r e0 x l)
  = K (built r e0 x (l ++ warnings d)).
Proof.
  unfold get, warnings. rewrite ret_bind.
  destruct (truthy _); simpl; [done|].
  by rewrite ret_bind, app_nil_r.
Qed.

Lemma text_step (r : Ref) (e0 x : Element) (l : list string)
    (t : string) (v : Scalar) (K : M unit) :
  is_Some (get_elem r e0) ->
  (e ← SubElement (block_ref r e0) t; set_text e v;; K) (built r e0 x l)
  = K (built r e0 (add_children [text_element t v] x) l).
Proof.
  intros H.
  transitivity
    (((e ← SubElement (block_ref r e0) t; set_text e v) ≫= fun _ => K)
       (built r e0 x l)); [reflexivity|].
  by erewrite bind_ok by by apply field_run.
Qed.

Lemma start_step (limit : Z) (d : gmap string Scalar) (r : Ref)
    (e0 x : Element) (l : list string) (K : M unit) :
  is_Some (get_elem r e0) ->
  (sn ← get (VDict d) "start-notify" PNone;
   ns ← get (VDict d) "notify-start" PNone;
   when (is_not_None sn || is_not_None ns)
     (ns' ← get (VDict d) "notify-start" (PStr "");
      value ← py_str limit ns';
      value ← (if negb (String.eqb value "") then ret value
               else sn' ← get (VDict d) "start-notify" (PStr "");
                    py_str limit sn');
      let value := lower value in
      let value := if String.eqb value "" then "false" else value in
      e ← SubElement (block_ref r e0) "startNotification";
      set_text e (PStr value));;
   K) (built r e0 x l)
  = match start_fill limit d with
    | Some fs => K (built r e0 (add_children fs x) l)
    | None => (built r e0 x l, Raise ValueError)
    end.
Proof.
  intros H. rewrite !get_step. unfold start_fill, start_elems.
  fold (start_given d). destruct (start_given d); simpl;
    [|by rewrite ret_bind, add_children_nil].
  rewrite bind_run.
  destruct (str_raises limit (dict_get d "notify-start" (PStr ""))) eqn:E1.
  { by rewrite py_str_raises. }
  rewrite (py_str_ok _ _ _ _ E1), str_of_dict_get.
  destruct (String.eqb (str_of d "notify-start") "") eqn:E2; cbn [negb].
  - destruct (str_raises limit (dict_get d "start-notify" (PStr ""))) eqn:E3.
    { by rewrite py_str_raises. }
    rewrite (py_str_ok _ _ _ _ E3), str_of_dict_get.
    rewrite (start_value_second d E2).
    by rewrite (field_run r e0 x l "startNotification" _ H).
  - rewrite ret_bind, (start_value_first d E2).
    by rewrite (field_run r e0 x l "startNotification" _ H).
Qed.

Lemma notify_field_step (limit : Z) (d : gmap string Scalar) (r : Ref)
    (e0 x : Element) (l : list string) (k t : string) (K : M unit) :
  is_Some (get_elem r e0) ->
  (notify_field limit (VDict d) (block_ref r e0) k t;; K) (built r e0 x l)
  = match notify_fill limit d k t with
    | Some fs => K (built r e0 (add_children fs x) l)
    | None => (built r e0 x l, Raise ValueError)
    end.
Proof.
  intros H. unfold notify_field, notify_fill, notify_elems.
  rewrite get_step.
  destruct (dict_get d k PNone) as [|b|z|w] eqn:Hv;
    [by rewrite bind_run; simpl; rewrite add_children_nil|..];
    simpl is_not_None; unfold when; rewrite bind_run, get_step, Hv;
    (destruct (str_raises limit _) eqn:E;
     [by rewrite py_str_raises
     |rewrite (py_str_ok _ _ _ _ E);
      by rewrite (field_run r e0 x l t _ H)]).
Qed.

(** ** Finding or creating a section *)

Lemma find_tag_Some (t : string) (cs : list Element) (i : nat) :
  find_tag t cs = Some i ->
  exists c, cs !! i = Some c /\ tag c = t.
Proof.
  revert i. induction cs as [|c cs IH]; intros i; simpl; [done|].
  destruct (String.eqb (tag c) t) eqn:E.
  - intros [= <-]. exists c. split; [done|]. by apply String.eqb_eq.
  - destruct (find_tag t cs) as [j|]; simpl; [|done].
    intros [= <-]. by apply IH.
Qed.

Lemma section_run (sec : string) (k : Ref -> M unit) (s : Env) :
  (found ← find root sec;
   p ← match found with
       | Some p => ret p
       | None => SubElement root sec
       end;
   k p) s
  = k (section_ref sec (doc s)) (mkEnv (section_tree sec (doc s)) (log s)).
Proof.
  rewrite bind_run. unfold find, section_ref, section_tree. simpl.
  destruct (find_tag sec (children (doc s))); simpl.
  - rewrite ret_bind. by destruct s.
  - reflexivity.
Qed.

Lemma section_ref_valid (sec : string) (e : Element) :
  is_Some (get_elem (section_ref sec e) (section_tree sec e)).
Proof.
  unfold section_ref, section_tree.
  destruct (find_tag sec (children e)) as [i|] eqn:Hf; simpl.
  - destruct (find_tag_Some _ _ _ Hf) as (c & -> & _). by eexists.
  - rewrite lookup_app_r by lia. rewrite Nat.sub_diag. by eexists.
Qed.

Lemma section_attach (sec : string) (blk e : Element) :
  update (section_ref sec e) (append_child blk) (section_tree sec e)
  = attach sec blk e.
Proof.
  unfold section_ref, section_tree, attach.
  destruct (find_tag sec (children e)) as [i|] eqn:Hf; [done|].
  apply (update_last (append_child blk) (new_element sec) e).
Qed.

Lemma SubElement_run (r : Ref) (e0 : Element) (l : list string) (t : string)
    (k : Ref -> M unit) :
  (SubElement r t ≫= k) (mkEnv e0 l)
  = k (block_ref r e0) (built r e0 (new_element t) l).
Proof. reflexivity. Qed.

(** ** The call as a whole *)

(** The tree after the statements that ran: the property holds the
    fields [fs] written after [room]. *)
Lemma built_fields (d : gmap string Scalar) (e : Element) (l : list string)
    (x : Element) (fs : list Element) :
  x = mkElement HipChatJobProperty [] PNone PNone
        (text_element "room" (dict_get d "room" (PStr "")) :: fs) ->
  built (section_ref "properties" e) (section_tree "properties" e) x l
  = mkEnv (attach "properties"
             (mkElement HipChatJobProperty [] PNone PNone
                (text_element "room" (dict_get d "room" (PStr "")) :: fs)) e)
          l.
Proof. intros ->. unfold built. by rewrite section_attach. Qed.

(** An enabled call, on an interpreter with the limit [limit]: the
    statements run in order, [str] may stop them, and the publisher is
    attached only when none was stopped. *)
Lemma run_at_enabled (limit : Z) (data : gmap string Value)
    (d : gmap string Scalar) (s : Env) :
  data_get data "hipchat" = VDict d ->
  enabled d = true ->
  run_at limit data s = enabled_outcome limit d s.
Proof.
  intros Hd Hen. unfold enabled in Hen. apply andb_prop in Hen as [Hne Hen].
  unfold run_at, gen_xml. cbv zeta. rewrite Hd. unfold truthy_value.
  rewrite Hne. cbn [negb]. rewrite get_step, Hen. cbn [negb].
  rewrite (section_run "properties"), SubElement_run.
  pose proof (section_ref_valid "properties" (doc s)) as Hr.
  rewrite (room_step limit) by done.
  rewrite warn_step.
  rewrite start_step by done.
  destruct (start_fill limit d) as [f0|] eqn:F0;
    [repeat (rewrite notify_field_step by done;
             match goal with
             | |- context [notify_fill ?a ?b ?k ?t] =>
                 destruct (notify_fill a b k t) eqn:?
             end)|].
  1: { rewrite (section_run "publishers"), SubElement_run. cbn [doc log].
       rewrite field_run by apply section_ref_valid. unfold built at 1.
       rewrite section_attach.
       unfold enabled_outcome, property_written, property_fill, notify_keys.
       cbn [map fst snd].
       repeat match goal with
              | H : start_fill _ _ = _ |- _ => rewrite H; clear H
              | H : notify_fill _ _ _ _ = _ |- _ => rewrite H; clear H
              end.
       cbn [filled fst snd]. cbn [doc log]. do 3 f_equal.
       rewrite !add_children_add_children. unfold built.
       rewrite section_attach. cbn [doc]. f_equal.
       unfold add_children, set_children, new_element. simpl.
       by rewrite ?app_nil_r, <- ?app_assoc. }
  all: unfold enabled_outcome, property_written, property_fill, notify_keys;
    cbn [map fst snd];
    repeat match goal with
           | H : start_fill _ _ = _ |- _ => rewrite H; clear H
           | H : notify_fill _ _ _ _ = _ |- _ => rewrite H; clear H
           end;
    cbn [filled fst snd]; f_equal;
    rewrite ?add_children_add_children;
    apply (built_fields d);
    unfold add_children, set_children, new_element; simpl;
    by rewrite ?app_nil_r, <- ?app_assoc.
Qed.

Lemma renderable_dict_get (limit : Z) (d : gmap string Scalar) (k : string)
    (dflt : Scalar) :
  renderable limit d -> k ∈ switch_keys -> str_raises limit dflt = false ->
  str_raises limit (dict_get d k dflt) = false.
Proof.
  intros Hr Hk Hd. unfold dict_get.
  destruct (d !! k) as [v|] eqn:E; simpl; [by apply (Hr k)|done].
Qed.

Lemma renderable_no_limit (d : gmap string Scalar) : renderable 0 d.
Proof. intros k v _ _. by destruct v. Qed.

Lemma notify_keys_switch (k t : string) :
  (k, t) ∈ notify_keys -> k ∈ switch_keys.
Proof.
  unfold notify_keys. rewrite !elem_of_cons, elem_of_nil.
  intros [[= -> _]|[[= -> _]|[[= -> _]|[[= -> _]|[[= -> _]|[[= -> _]|[]]]]]]];
    unfold switch_keys; repeat constructor.
Qed.

(** When [str] renders every switch, every statement runs. *)
Lemma property_fill_renderable (limit : Z) (d : gmap string Scalar) :
  renderable limit d ->
  property_fill limit d = (property_children d, true).
Proof.
  intros Hr.
  assert (start_fill limit d = Some (start_elems d)) as Hs.
  { unfold start_fill, start_elems.
    destruct (start_given d); [|done].
    rewrite !(renderable_dict_get limit d) by
      (try done; unfold switch_keys; repeat constructor).
    by destruct (negb _). }
  assert (forall k t, (k, t) ∈ notify_keys ->
            notify_fill limit d k t = Some (notify_elems d k t)) as Hn.
  { intros k t Hkt. unfold notify_fill.
    by rewrite (renderable_dict_get limit d k PNone Hr
                  (notify_keys_switch k t Hkt)). }
  unfold property_fill, notify_keys. cbn [map fst snd].
  rewrite Hs, !Hn by (unfold notify_keys; repeat constructor).
  reflexivity.
Qed.

Lemma property_written_renderable (limit : Z) (d : gmap string Scalar) :
  renderable limit d -> property_written limit d = property_block d.
Proof.
  intros Hr. unfold property_written. by rewrite property_fill_renderable.
Qed.

(** An enabled call in which [str] renders every switch attaches the
    complete property and the complete publisher, and logs the
    deprecation warning if there is one. *)
Lemma run_at_enabled_renderable (limit : Z) (data : gmap string Value)
    (d : gmap string Scalar) (s : Env) :
  data_get data "hipchat" = VDict d ->
  enabled d = true ->
  renderable limit d ->
  run_at limit data s
  = (mkEnv (attach "publishers" publisher_block
              (attach "properties" (property_block d) (doc s)))
           (log s ++ warnings d),
     Ok tt).
Proof.
  intros Hd Hen Hr. rewrite (run_at_enabled limit data d s Hd Hen).
  unfold enabled_outcome.
  by rewrite property_written_renderable, property_fill_renderable.
Qed.

Lemma gen_xml_enabled (data : gmap string Value) (d : gmap string Scalar)
    (s : Env) :
  data_get data "hipchat" = VDict d ->
  enabled d = true ->
  run data s
  = (mkEnv (attach "publishers" publisher_block
              (attach "properties" (property_block d) (doc s)))
           (log s ++ warnings d),
     Ok tt).
Proof.
  intros Hd Hen.
  apply (run_at_enabled_renderable 0 data d s Hd Hen), renderable_no_limit.
Qed.

(** ** Sections and blocks of the tree after an attachment *)

Lemma find_tag_alter (t : string) (g : Element -> Element) (i : nat)
    (cs : list Element) :
  (forall c, tag (g c) = tag c) ->
  find_tag t (alter g i cs) = find_tag t cs.
Proof.
  intros Hg. revert i. induction cs as [|c cs IH]; intros [|i]; simpl; try done.
  - by rewrite Hg.
  - by rewrite <- (IH i).
Qed.

Lemma find_tag_app (t : string) (cs cs' : list Element) :
  find_tag t (cs ++ cs')
  = match find_tag t cs with
    | Some i => Some i
    | None => option_map (fun j => length cs + j)%nat (find_tag t cs')
    end.
Proof.
  induction cs as [|c cs IH]; simpl.
  - by destruct (find_tag t cs').
  - destruct (String.eqb (tag c) t); [done|]. rewrite IH.
    destruct (find_tag t cs); [done|]. by destruct (find_tag t cs').
Qed.

Lemma find_child_app (t : string) (cs cs' : list Element) :
  find_child t (cs ++ cs')
  = match find_child t cs with
    | Some c => Some c
    | None => find_child t cs'
    end.
Proof.
  unfold find_child. rewrite find_tag_app.
  destruct (find_tag t cs) as [i|] eqn:Hi.
  - destruct (find_tag_Some _ _ _ Hi) as (c & Hc & _).
    rewrite Hc. by apply lookup_app_l_Some.
  - destruct (find_tag t cs') as [j|]; simpl; [|done].
    rewrite lookup_app_r by lia. f_equal. lia.
Qed.

Lemma find_child_cons (t : string) (c : Element) (cs : list Element) :
  find_child t (c :: cs)
  = if String.eqb (tag c) t then Some c else find_child t cs.
Proof.
  unfold find_child. simpl. destruct (String.eqb (tag c) t); [done|].
  by destruct (find_tag t cs).
Qed.

Lemma added_attach (sec : string) (blk e : Element) :
  added sec (attach sec blk e) = Some blk.
Proof.
  unfold added, attach, find_child.
  destruct (find_tag sec (children e)) as [i|] eqn:Hi; simpl.
  - rewrite find_tag_alter by done. rewrite Hi, list_lookup_alter_eq.
    destruct (find_tag_Some _ _ _ Hi) as (c & -> & _). simpl.
    apply last_snoc.
  - rewrite find_tag_app, Hi. simpl. rewrite String.eqb_refl. simpl.
    rewrite lookup_app_r by lia.
    by replace (length (children e) + 0 - length (children e))%nat
      with 0%nat by lia.
Qed.

Lemma added_attach_ne (sec sec' : string) (blk e : Element) :
  sec ≠ sec' ->
  added sec' (attach sec blk e) = added sec' e.
Proof.
  intros Hne. unfold added, attach.
  destruct (find_tag sec (children e)) as [i|] eqn:Hi; simpl.
  - unfold find_child. rewrite find_tag_alter by done.
    destruct (find_tag sec' (children e)) as [j|] eqn:Hj; [|done].
    destruct (find_tag_Some _ _ _ Hi) as (c & Hc & Ht).
    destruct (find_tag_Some _ _ _ Hj) as (c' & Hc' & Ht').
    rewrite list_lookup_alter_ne; [done|].
    intros ->. congruence.
  - rewrite find_child_app. destruct (find_child sec' (children e)); [done|].
    rewrite find_child_cons. simpl.
    by apply String.eqb_neq in Hne as ->.
Qed.







Lemma find_tag_attach_ne (sec sec' : string) (blk e : Element) :
  sec ≠ sec' ->
  find_tag sec' (children (attach sec blk e)) = find_tag sec' (children e).
Proof.
  intros Hne. unfold attach.
  destruct (find_tag sec (children e)); simpl.
  - by apply find_tag_alter.
  - rewrite find_tag_app. destruct (find_tag sec' (children e)); [done|].
    simpl. by apply String.eqb_neq in Hne as ->.
Qed.



(** ** The calls that do nothing, and the call that fails *)

Lemma run_at_skip (limit : Z) (data : gmap string Value) (s : Env) :
  truthy_value (data_get data "hipchat") = false ->
  run_at limit data s = (s, Ok tt).
Proof. intros H. unfold run_at, gen_xml. cbv zeta. by rewrite H. Qed.

Lemma run_at_disabled (limit : Z) (data : gmap string Value)
    (d : gmap string Scalar) (s : Env) :
  data_get data "hipchat" = VDict d ->
  enabled d = false ->
  run_at limit data s = (s, Ok tt).
Proof.
  intros Hd Hen. unfold run_at, gen_xml. cbv zeta. rewrite Hd.
  unfold enabled in Hen. unfold truthy_value.
  destruct (negb (bool_decide (d = ∅))); cbn [negb]; [|done].
  rewrite get_step. simpl in Hen. by rewrite Hen.
Qed.

Lemma run_at_not_mapping (limit : Z) (data : gmap string Value) (v : Scalar)
    (s : Env) :
  data_get data "hipchat" = VScalar v ->
  truthy v = true ->
  run_at limit data s = (s, Raise AttributeError).
Proof.
  intros Hd Hv. unfold run_at, gen_xml. cbv zeta. rewrite Hd. simpl.
  by rewrite Hv.
Qed.

Lemma gen_xml_skip (data : gmap string Value) (s : Env) :
  truthy_value (data_get data "hipchat") = false ->
  run data s = (s, Ok tt).
Proof. apply run_at_skip. Qed.

Lemma gen_xml_disabled (data : gmap string Value) (d : gmap string Scalar)
    (s : Env) :
  data_get data "hipchat" = VDict d ->
  enabled d = false ->
  run data s = (s, Ok tt).
Proof. apply run_at_disabled. Qed.



(** ** The blocks of an enabled call *)

Lemma run_enabled_added (data : gmap string Value) (d : gmap string Scalar)
    (s : Env) :
  data_get data "hipchat" = VDict d ->
  enabled d = true ->
  exists s',
    run data s = (s', Ok tt)
    /\ added "properties" (doc s') = Some (property_block d)
    /\ added "publishers" (doc s') = Some publisher_block.
Proof.
  intros Hd Hen. eexists. split; [by apply gen_xml_enabled|]. simpl. split.
  - rewrite added_attach_ne by done. apply added_attach.
  - apply added_attach.
Qed.

Lemma find_child_start_elems (t : string) (d : gmap string Scalar) :
  find_child t (start_elems d)
  = if String.eqb "startNotification" t && start_given d
    then Some (text_element "startNotification" (PStr (start_value d)))
    else None.
Proof.
  unfold start_elems. destruct (start_given d).
  - rewrite find_child_cons. simpl tag.
    by destruct (String.eqb "startNotification" t).
  - by rewrite andb_false_r.
Qed.

Lemma find_child_notify_elems (t' : string) (d : gmap string Scalar)
    (k t : string) :
  find_child t' (notify_elems d k t)
  = if String.eqb t t'
    then match dict_get d k PNone with
         | PNone => None
         | v => Some (text_element t (PStr (lower (str v))))
         end
    else None.
Proof.
  unfold notify_elems.
  destruct (dict_get d k PNone); rewrite ?find_child_cons; simpl tag;
    by destruct (String.eqb t t').
Qed.

Lemma field_startNotification (d : gmap string Scalar) :
  field "startNotification" (property_block d)
  = if start_given d then Some (PStr (start_value d)) else None.
Proof.
  unfold field, property_block, property_children. simpl.
  rewrite find_child_cons. simpl String.eqb. cbv iota.
  rewrite !find_child_app, find_child_start_elems. simpl String.eqb.
  simpl andb. destruct (start_given d); [done|].
  rewrite !find_child_notify_elems. done.
Qed.

Lemma field_notify (d : gmap string Scalar) (k t : string) :
  (k, t) ∈ notify_keys ->
  field t (property_block d)
  = match dict_get d k PNone with
    | PNone => None
    | v => Some (PStr (lower (str v)))
    end.
Proof.
  intros Hkt. unfold field, property_block, property_children. simpl.
  rewrite find_child_cons, !find_child_app, find_child_start_elems.
  rewrite !find_child_notify_elems.
  unfold notify_keys in Hkt. rewrite !elem_of_cons, elem_of_nil in Hkt.
  destruct Hkt as [[= -> ->]|[[= -> ->]|[[= -> ->]|[[= -> ->]|[[= -> ->]|
    [[= -> ->]|[]]]]]]]; simpl;
    by destruct (dict_get d _ PNone).
Qed.

(** ** What a call leaves in place *)

Lemma same_node_refl (e : Element) : same_node e e.
Proof. by repeat split. Qed.

Lemma same_node_trans (e1 e2 e3 : Element) :
  same_node e1 e2 -> same_node e2 e3 -> same_node e1 e3.
Proof.
  intros (? & ? & ? & ? & ?) (? & ? & ? & ? & ?).
  repeat split; try congruence. lia.
Qed.

Lemma preserved_refl (e : Element) : preserved e e.
Proof. intros p e0 H. exists e0. split; [done|]. apply same_node_refl. Qed.

Lemma preserved_trans (e1 e2 e3 : Element) :
  preserved e1 e2 -> preserved e2 e3 -> preserved e1 e3.
Proof.
  intros H12 H23 p e0 H1.
  destruct (H12 p e0 H1) as (e0' & H2 & Hs).
  destruct (H23 p e0' H2) as (e0'' & H3 & Hs').
  exists e0''. split; [done|]. by eapply same_node_trans.
Qed.

(** Appending a child anywhere in the tree preserves the tree. *)
Lemma preserved_append (q : Ref) (x e : Element) :
  preserved e (update q (append_child x) e).
Proof.
  revert e. induction q as [|j q IH]; intros e p e0.
  - destruct p as [|i p]; simpl.
    + intros [= <-]. eexists. split; [done|].
      repeat split; simpl. rewrite length_app. lia.
    + destruct (children e !! i) as [c|] eqn:Hc; [|done]. intros H.
      rewrite (lookup_app_l_Some _ _ _ _ Hc). exists e0.
      split; [done|]. apply same_node_refl.
  - destruct p as [|i p]; simpl.
    + intros [= <-]. eexists. split; [done|].
      repeat split; simpl. by rewrite length_alter.
    + destruct (children e !! i) as [c|] eqn:Hc; [|done]. intros H.
      destruct (decide (j = i)) as [->|Hne].
      * rewrite list_lookup_alter_eq, Hc. simpl. by apply IH.
      * rewrite list_lookup_alter_ne, Hc by done. exists e0.
        split; [done|]. apply same_node_refl.
Qed.

Lemma attach_update (sec : string) (blk e : Element) :
  exists q x, attach sec blk e = update q (append_child x) e.
Proof.
  unfold attach. destruct (find_tag sec (children e)) as [i|].
  - by exists [i], blk.
  - by exists [], (mkElement sec [] PNone PNone [blk]).
Qed.

Lemma preserved_attach (sec : string) (blk e : Element) :
  preserved e (attach sec blk e).
Proof.
  destruct (attach_update sec blk e) as (q & x & ->). apply preserved_append.
Qed.



(** The outcomes of a call on an interpreter with a limit. *)
Lemma run_at_cases (limit : Z) (data : gmap string Value) (s : Env) :
  (exists v, data_get data "hipchat" = VScalar v /\ truthy v = true
             /\ run_at limit data s = (s, Raise AttributeError))
  \/ ((forall d, data_get data "hipchat" = VDict d -> enabled d = false)
      /\ (forall v, data_get data "hipchat" = VScalar v -> truthy v = false)
      /\ run_at limit data s = (s, Ok tt))
  \/ (exists d, data_get data "hipchat" = VDict d /\ enabled d = true
                /\ run_at limit data s = enabled_outcome limit d s).
Proof.
  destruct (data_get data "hipchat") as [v|d] eqn:Hd.
  - destruct (truthy v) eqn:Hv.
    + left. exists v. repeat split; try done.
      by apply (run_at_not_mapping _ _ v).
    + right; left. split; [done|]. split; [by intros v' [= <-]|].
      apply run_at_skip. by rewrite Hd.
  - destruct (enabled d) eqn:He.
    + right; right. exists d. repeat split; try done. by apply run_at_enabled.
    + right; left. split; [by intros d' [= <-]|]. split; [done|].
      by apply (run_at_disabled _ _ d).
Qed.

Lemma start_fill_Some (limit : Z) (d : gmap string Scalar)
    (fs : list Element) :
  start_fill limit d = Some fs -> fs = start_elems d.
Proof.
  unfold start_fill, start_elems. destruct (start_given d); [|by intros [= <-]].
  destruct (str_raises limit _); [done|].
  destruct (negb _); [by intros [= <-]|].
  destruct (str_raises limit _); [done|]. by intros [= <-].
Qed.

Lemma notify_fill_Some (limit : Z) (d : gmap string Scalar) (k t : string)
    (fs : list Element) :
  notify_fill limit d k t = Some fs -> fs = notify_elems d k t.
Proof.
  unfold notify_fill. destruct (str_raises limit _); [done|]. by intros [= <-].
Qed.

(** When every statement ran, the property is complete. *)
Lemma property_fill_ok (limit : Z) (d : gmap string Scalar) :
  (property_fill limit d).2 = true ->
  property_written limit d = property_block d.
Proof.
  unfold property_written, property_block, property_children, property_fill,
    notify_keys. cbn [map fst snd].
  destruct (start_fill limit d) as [f0|] eqn:F0; [|done].
  apply start_fill_Some in F0 as ->.
  repeat match goal with
         | |- context [notify_fill ?a ?b ?k ?t] =>
             let F := fresh "F" in
             destruct (notify_fill a b k t) eqn:F;
             [apply notify_fill_Some in F as ->|done]
         end.
  intros _. reflexivity.
Qed.

Lemma property_fill_stopped (limit : Z) (d : gmap string Scalar) :
  (property_fill limit d).2 = false -> ~ renderable limit d.
Proof.
  intros H Hr. by rewrite (property_fill_renderable limit d Hr) in H.
Qed.


(** ** The call on two jobs *)

(** [{start-notify: true}] on a tree without sections: both sections are
    created, [startNotification] is ["true"], and the deprecation
    warning is logged. *)
Example start_notify_only :
  run (job {["start-notify" := PBool true]}) empty_job
  = (mkEnv
       (mkElement "project" [] PNone PNone
          [mkElement "properties" [] PNone PNone
             [mkElement HipChatJobProperty [] PNone PNone
                [text_element "room" (PStr "");
                 text_element "startNotification" (PStr "true")]];
           mkElement "publishers" [] PNone PNone
             [mkElement HipChatNotifier [] PNone PNone
                [text_element "room" (PStr "")]]])
       ["start-notify is deprecated please use notify-start"],
     Ok tt).
Proof. reflexivity. Qed.

(** [notify_options] on a tree that has both sections: the sections are
    reused, and the other children of the root are as they were. *)
Example notify_on_sectioned_job :
  run (job notify_options) sectioned_job
  = (mkEnv
       (mkElement "project" [] PNone PNone
          [new_element "actions";
           mkElement "properties" [] PNone PNone
             [mkElement HipChatJobProperty [] PNone PNone
                [text_element "room" (PStr "Dev");
                 text_element "notifySuccess" (PStr "true");
                 text_element "notifyFailure" (PStr "false")]];
           new_element "scm";
           mkElement "publishers" [] PNone PNone
             [mkElement HipChatNotifier [] PNone PNone
                [text_element "room" (PStr "")]]])
       [],
     Ok tt).
Proof. reflexivity. Qed.

(** * The claims *)

(** ** C1: one property and one publisher, or nothing *)




(** ** C9: no options, no effect *)

(** C9: when the ['hipchat'] entry is absent, [None] or an empty mapping
    (anything false), the call returns at once: the tree and the log are
    untouched, although [enabled] is absent. *)
Theorem C9_no_options_no_effect (data : gmap string Value) (s : Env) :
  truthy_value (data_get data "hipchat") = false ->
  run data s = (s, Ok tt).
Proof. apply gen_xml_skip. Qed.

Lemma C9_no_options_no_effect_witness :
  truthy_value (data_get (job ∅) "hipchat") = false
  /\ (∅ : gmap string Scalar) !! "enabled" = None
  /\ run (job ∅) sectioned_job = (sectioned_job, Ok tt).
Proof.
  split; [reflexivity|]. split; [reflexivity|].
  apply (C9_no_options_no_effect (job ∅) sectioned_job). reflexivity.
Defined.

(** ** C8: all or nothing, unless [str] raises *)

(** C8, as stated, fails: with an integer of 4301 digits under
    [notify-success], on an interpreter with the limit of 4300 digits,
    [str] raises [ValueError] after the property was attached: the tree
    has changed, the property holds [room] only, and no publisher was
    added. *)
Lemma C8_long_integer_leaves_partial_property :
  (run_at default_limit (job long_integer_options) empty_job).2
  = Raise ValueError
  /\ doc (run_at default_limit (job long_integer_options) empty_job).1
     ≠ doc empty_job
  /\ added "properties"
       (doc (run_at default_limit (job long_integer_options) empty_job).1)
     = Some (mkElement HipChatJobProperty [] PNone PNone
               [text_element "room" (PStr "")])
  /\ added "publishers"
       (doc (run_at default_limit (job long_integer_options) empty_job).1)
     = None.
Proof.
  assert (run_at default_limit (job long_integer_options) empty_job
          = (mkEnv (mkElement "project" [] PNone PNone
                      [mkElement "properties" [] PNone PNone
                         [mkElement HipChatJobProperty [] PNone PNone
                            [text_element "room" (PStr "")]]]) [],
             Raise ValueError)) as -> by (vm_compute; reflexivity).
  repeat split; try reflexivity. discriminate.
Qed.

(** C8, amended: a call is all or nothing whenever [str] renders the
    options it is applied to: it returns having touched nothing or
    having attached the complete property and the complete publisher,
    or it raises [AttributeError], for a ['hipchat'] entry that is not a
    mapping, having touched nothing.  When [str] raises [ValueError],
    for an integer longer than the interpreter's limit, the property
    stays attached with the fields written before, and no publisher is
    added. *)
Theorem C8_all_or_nothing_when_rendered (limit : Z)
    (data : gmap string Value) (s : Env) :
  match run_at limit data s with
  | (s', Ok _) =>
      s' = s
      \/ exists d,
           data_get data "hipchat" = VDict d
           /\ doc s' = attach "publishers" publisher_block
                         (attach "properties" (property_block d) (doc s))
           /\ added "properties" (doc s') = Some (property_block d)
           /\ added "publishers" (doc s') = Some publisher_block
  | (s', Raise AttributeError) => s' = s
  | (s', Raise ValueError) =>
      exists d,
        data_get data "hipchat" = VDict d
        /\ ~ renderable limit d
        /\ doc s' = attach "properties" (property_written limit d) (doc s)
        /\ added "properties" (doc s') = Some (property_written limit d)
        /\ added "publishers" (doc s') = added "publishers" (doc s)
  end.
Proof.
  destruct (run_at_cases limit data s)
    as [(v & _ & _ & ->)|[(_ & _ & ->)|(d & Hd & He & ->)]];
    [done|by left|].
  unfold enabled_outcome.
  destruct (property_fill limit d).2 eqn:Hok.
  - right. exists d. rewrite (property_fill_ok limit d Hok). simpl.
    split; [done|]. split; [done|]. split.
    + rewrite added_attach_ne by done. apply added_attach.
    + apply added_attach.
  - exists d. simpl. split; [done|].
    split; [by apply property_fill_stopped|]. split; [done|]. split.
    + apply added_attach.
    + by apply added_attach_ne.
Qed.

(** The failing call that touches nothing: the ['hipchat'] entry is
    [True], not a mapping. *)
Lemma not_a_mapping_raises :
  run {["hipchat" := VScalar (PBool true)]} sectioned_job
  = (sectioned_job, Raise AttributeError).
Proof. reflexivity. Qed.

(** ** C10: the call only appends *)

(** C10: whatever the job description and the interpreter's limit, and
    whether the call returns or fails, every element of the tree is
    found after the call where it was, with its tag, attributes, text and
    tail, and with its children followed by new ones at most; and what
    is new is nothing but this: the tree is the tree before the call, or
    that tree with the property attached (appended to the first
    properties section, or to a properties section appended to the
    root when there was none), or that tree with the property attached
    and then the publisher attached in the same way. *)
Theorem C10_append_only (limit : Z) (data : gmap string Value) (s : Env) :
  preserved (doc s) (doc (run_at limit data s).1)
  /\ (doc (run_at limit data s).1 = doc s
      \/ exists d,
           data_get data "hipchat" = VDict d
           /\ (doc (run_at limit data s).1
               = attach "properties" (property_written limit d) (doc s)
               \/ doc (run_at limit data s).1
                  = attach "publishers" publisher_block
                      (attach "properties" (property_written limit d)
                         (doc s)))).
Proof.
  destruct (run_at_cases limit data s)
    as [(v & _ & _ & ->)|[(_ & _ & ->)|(d & Hd & _ & ->)]]; simpl.
  - split; [apply preserved_refl|by left].
  - split; [apply preserved_refl|by left].
  - unfold enabled_outcome. destruct (property_fill limit d).2; simpl.
    + split; [eapply preserved_trans; apply preserved_attach|].
      right. exists d. split; [done|by right].
    + split; [apply preserved_attach|].
      right. exists d. split; [done|by left].
Qed.

(** ** C4: the two [room] fields *)

(** C4: in an enabled call the property's [room] is the value of the
    option [room], or the empty string when the option is absent, and
    the publisher's [room] is the empty string whatever the options. *)
Theorem C4_room_fields (data : gmap string Value) (d : gmap string Scalar)
    (s : Env) :
  data_get data "hipchat" = VDict d ->
  enabled d = true ->
  exists s' blk pub,
    run data s = (s', Ok tt)
    /\ added "properties" (doc s') = Some blk
    /\ added "publishers" (doc s') = Some pub
    /\ field "room" blk = Some (match d !! "room" with
                                | Some v => v
                                | None => PStr ""
                                end)
    /\ field "room" pub = Some (PStr "").
Proof.
  intros Hd He.
  destruct (run_enabled_added data d s Hd He) as (s' & Hrun & Hp & Hq).
  exists s', (property_block d), publisher_block. by repeat split.
Qed.

Lemma C4_room_fields_witness :
  data_get (job {["room" := PStr "Dev"]}) "hipchat"
  = VDict {["room" := PStr "Dev"]}
  /\ enabled {["room" := PStr "Dev"]} = true
  /\ exists s' blk pub,
       run (job {["room" := PStr "Dev"]}) sectioned_job = (s', Ok tt)
       /\ added "properties" (doc s') = Some blk
       /\ added "publishers" (doc s') = Some pub
       /\ field "room" blk
          = Some (match ({["room" := PStr "Dev"]} : gmap string Scalar)
                        !! "room" with
                  | Some v => v
                  | None => PStr ""
                  end)
       /\ field "room" pub = Some (PStr "").
Proof.
  split; [reflexivity|]. split; [reflexivity|].
  apply (C4_room_fields (job {["room" := PStr "Dev"]})
           {["room" := PStr "Dev"]} sectioned_job); reflexivity.
Defined.

(** ** C2: [startNotification] *)

Lemma start_given_present (d : gmap string Scalar) :
  start_given d = true <-> present d "start-notify" \/ present d "notify-start".
Proof.
  unfold start_given, present, dict_get. rewrite orb_true_iff.
  split; (intros [H|H]; [left|right]; revert H).
  - destruct (d !! "start-notify") as [[]|]; try done; intros _;
      by eexists.
  - destruct (d !! "notify-start") as [[]|]; try done; intros _;
      by eexists.
  - intros (v & -> & Hv). by destruct v.
  - intros (v & -> & Hv). by destruct v.
Qed.

(** C2: the claim holds of [{start-notify: true, notify-start: false}],
    which writes ["false"], and of [{start-notify: true}], which writes
    ["true"]; the code breaks it where [notify-start] holds a YAML null
    beside [start-notify: true].  The test of lines 95-96 takes the null
    for an absent value, as the claim does, so the field should be the
    string of [start-notify], ["true"]; but [get('notify-start', '')]
    returns the null, [str] makes ["None"] of it, and the call writes
    ["none"]. *)
Theorem C2_null_notify_start_written_as_none :
  (exists s' blk,
     run (job start_both_options) empty_job = (s', Ok tt)
     /\ added "properties" (doc s') = Some blk
     /\ field "startNotification" blk = Some (PStr "false"))
  /\ (exists s' blk,
        run (job {["start-notify" := PBool true]}) empty_job = (s', Ok tt)
        /\ added "properties" (doc s') = Some blk
        /\ field "startNotification" blk = Some (PStr "true"))
  /\ present null_start_options "start-notify"
  /\ ~ present null_start_options "notify-start"
  /\ null_start_options !! "start-notify" = Some (PBool true)
  /\ exists s' blk,
       run (job null_start_options) empty_job = (s', Ok tt)
       /\ run_at default_limit (job null_start_options) empty_job
          = (s', Ok tt)
       /\ added "properties" (doc s') = Some blk
       /\ field "startNotification" blk = Some (PStr "none").
Proof.
  split; [eexists _, _; split; [vm_compute; reflexivity|by vm_compute]|].
  split; [eexists _, _; split; [vm_compute; reflexivity|by vm_compute]|].
  split; [exists (PBool true); by split|].
  split; [intros (v & Hv & Hne); vm_compute in Hv; congruence|].
  split; [reflexivity|].
  eexists _, _. split; [vm_compute; reflexivity|].
  split; [vm_compute; reflexivity|]. by vm_compute.
Qed.

(** ** C3: the six [notify-*] fields *)



(** ** C5: [start-notify: "0"] *)

(** C5, as stated, fails: with [start-notify: "0"] the call writes ["0"],
    not ["false"]. *)
Lemma C5_zero_string_not_false :
  zero_options !! "start-notify" = Some (PStr "0")
  /\ zero_options !! "notify-start" = None
  /\ ~ emits_false (job zero_options) empty_job.
Proof.
  split; [reflexivity|]. split; [reflexivity|].
  intros (s' & blk & Hrun & Hadd & Hf).
  vm_compute in Hrun. injection Hrun as <-.
  vm_compute in Hadd. injection Hadd as <-.
  vm_compute in Hf. discriminate Hf.
Qed.

(** C5, amended: in an enabled call with [notify-start] absent,
    [start-notify: "0"] writes [startNotification] as ["0"], an absent
    [start-notify] writes no [startNotification] at all, and it is the
    empty string in [start-notify] that writes ["false"]. *)
Theorem C5_zero_string_written (data : gmap string Value)
    (d : gmap string Scalar) (s : Env) :
  data_get data "hipchat" = VDict d ->
  enabled d = true ->
  d !! "notify-start" = None ->
  exists s' blk,
    run data s = (s', Ok tt)
    /\ added "properties" (doc s') = Some blk
    /\ (d !! "start-notify" = Some (PStr "0") ->
        field "startNotification" blk = Some (PStr "0"))
    /\ (d !! "start-notify" = None ->
        field "startNotification" blk = None)
    /\ (d !! "start-notify" = Some (PStr "") ->
        field "startNotification" blk = Some (PStr "false")).
Proof.
  intros Hd He Hns.
  destruct (run_enabled_added data d s Hd He) as (s' & Hrun & Hp & Hq).
  exists s', (property_block d). split; [done|]. split; [done|].
  rewrite field_startNotification.
  unfold start_given, start_value, str_of, dict_get. rewrite Hns.
  repeat split; by intros ->.
Qed.

Lemma C5_zero_string_written_witness :
  data_get (job zero_options) "hipchat" = VDict zero_options
  /\ enabled zero_options = true
  /\ zero_options !! "notify-start" = None
  /\ exists s' blk,
       run (job zero_options) empty_job = (s', Ok tt)
       /\ added "properties" (doc s') = Some blk
       /\ field "startNotification" blk = Some (PStr "0").
Proof.
  split; [reflexivity|]. split; [reflexivity|]. split; [reflexivity|].
  destruct (C5_zero_string_written (job zero_options) zero_options empty_job
              eq_refl eq_refl eq_refl)
    as (s' & blk & Hrun & Hadd & Hz & _).
  exists s', blk. split; [exact Hrun|]. split; [exact Hadd|].
  apply Hz. reflexivity.
Defined.

(** ** C6: the two sections *)







(** ** C7: values of an unexpected type *)

(** C7, as stated, fails: an integer and a string under [notify-*] keys
    raise nothing and are written as their strings. *)
Lemma C7_malformed_options_accepted :
  malformed_options !! "notify-success" = Some (PInt 7)
  /\ malformed_options !! "notify-failure" = Some (PStr "Sometimes")
  /\ ~ raises (job malformed_options) empty_job
  /\ exists s' blk,
       run (job malformed_options) empty_job = (s', Ok tt)
       /\ added "properties" (doc s') = Some blk
       /\ field "notifySuccess" blk = Some (PStr "7")
       /\ field "notifyFailure" blk = Some (PStr "sometimes").
Proof.
  split; [reflexivity|]. split; [reflexivity|]. split.
  - intros (s' & e & H). vm_compute in H. discriminate H.
  - eexists _, _. split; [vm_compute; reflexivity|]. by vm_compute.
Qed.

(** C7, amended: the call validates nothing.  For every mapping of
    options in which [str] renders every switch (its values are [None],
    booleans, strings, or integers within the interpreter's limit), the
    call raises nothing; and in an enabled call a value other than
    [None] under a [notify-*] key, whatever its type among these, is
    written as its string in lower case (for a string that is ASCII
    text). *)
Theorem C7_no_validation (limit : Z) (data : gmap string Value)
    (d : gmap string Scalar) (s : Env) :
  data_get data "hipchat" = VDict d ->
  renderable limit d ->
  ~ raises_at limit data s
  /\ (enabled d = true ->
      forall k t v,
        (k, t) ∈ notify_keys -> d !! k = Some v -> v ≠ PNone ->
        ascii_only (str v) = true ->
        exists s' blk,
          run_at limit data s = (s', Ok tt)
          /\ added "properties" (doc s') = Some blk
          /\ field t blk = Some (PStr (lower (str v)))).
Proof.
  intros Hd Hr. split.
  - intros (s' & e & H).
    destruct (run_at_cases limit data s)
      as [(v & Hv & _)|[(_ & _ & H')|(d' & Hd' & He & H')]]; [congruence..|].
    assert (d' = d) as -> by congruence.
    rewrite (run_at_enabled_renderable limit data d s Hd He Hr) in H.
    congruence.
  - intros He k t v Hkt Hk Hv _.
    rewrite (run_at_enabled_renderable limit data d s Hd He Hr).
    eexists _, (property_block d). split; [done|]. simpl. split.
    + rewrite added_attach_ne by done. apply added_attach.
    + rewrite (field_notify d k t Hkt). unfold dict_get. rewrite Hk.
      by destruct v.
Qed.

Lemma renderable_malformed_options :
  renderable default_limit malformed_options.
Proof.
  intros k v Hk. unfold switch_keys in Hk.
  rewrite !elem_of_cons, elem_of_nil in Hk.
  destruct Hk as [->|[->|[->|[->|[->|[->|[->|[->|[]]]]]]]]]; intros H;
    vm_compute in H; try discriminate H; injection H as <-; by vm_compute.
Qed.

Lemma C7_no_validation_witness :
  data_get (job malformed_options) "hipchat" = VDict malformed_options
  /\ renderable default_limit malformed_options
  /\ ~ raises_at default_limit (job malformed_options) empty_job
  /\ exists s' blk,
       run_at default_limit (job malformed_options) empty_job = (s', Ok tt)
       /\ added "properties" (doc s') = Some blk
       /\ field "notifyFailure" blk = Some (PStr (lower "Sometimes")).
Proof.
  split; [reflexivity|]. split; [exact renderable_malformed_options|].
  destruct (C7_no_validation default_limit (job malformed_options)
              malformed_options empty_job eq_refl
              renderable_malformed_options) as [Hno Henc].
  split; [exact Hno|].
  apply (Henc eq_refl "notify-failure" "notifyFailure" (PStr "Sometimes")).
  - unfold notify_keys. do 4 apply list_elem_of_further.
    apply list_elem_of_here.
  - reflexivity.
  - discriminate.
  - reflexivity.
Defined.

(** * More of [gen_xml] *)

(** ** The log *)


(** ** The failures *)

Lemma str_raises_dict_get (limit : Z) (d : gmap string Scalar) (k : string)
    (dflt : Scalar) :
  str_raises limit dflt = false ->
  str_raises limit (dict_get d k dflt) = true <-> too_long limit d k.
Proof.
  intros Hd. unfold dict_get, too_long.
  destruct (d !! k) as [v|]; simpl; split.
  - intros H. by exists v.
  - by intros (v' & [= <-] & H).
  - congruence.
  - by intros (v' & ? & _).
Qed.

Lemma too_long_not_None (limit : Z) (d : gmap string Scalar) (k : string) :
  too_long limit d k -> is_not_None (dict_get d k PNone) = true.
Proof. intros (v & Hv & Hr). unfold dict_get. rewrite Hv. by destruct v. Qed.

Lemma start_fill_None (limit : Z) (d : gmap string Scalar) :
  start_fill limit d = None <->
  too_long limit d "notify-start"
  \/ (str_of d "notify-start" = "" /\ too_long limit d "start-notify").
Proof.
  unfold start_fill. split.
  - destruct (start_given d); [|done].
    destruct (str_raises limit (dict_get d "notify-start" (PStr ""))) eqn:E1.
    { intros _. left. by apply (str_raises_dict_get limit d _ (PStr "")). }
    destruct (String.eqb (str_of d "notify-start") "") eqn:E2; [|done].
    simpl.
    destruct (str_raises limit (dict_get d "start-notify" (PStr ""))) eqn:E3;
      [|done].
    intros _. right. split; [by apply String.eqb_eq|].
    by apply (str_raises_dict_get limit d _ (PStr "")).
  - intros H.
    assert (start_given d = true) as ->.
    { unfold start_given. apply orb_true_iff.
      destruct H as [H|[_ H]]; [right|left]; by eapply too_long_not_None. }
    destruct H as [H|[H1 H2]].
    + apply (str_raises_dict_get limit d _ (PStr "")) in H; [|done].
      by rewrite H.
    + destruct (str_raises limit (dict_get d "notify-start" (PStr "")));
        [done|].
      rewrite H1. simpl.
      apply (str_raises_dict_get limit d _ (PStr "")) in H2; [|done].
      by rewrite H2.
Qed.

Lemma notify_fill_None (limit : Z) (d : gmap string Scalar) (k t : string) :
  notify_fill limit d k t = None <-> too_long limit d k.
Proof.
  unfold notify_fill. rewrite <- (str_raises_dict_get limit d k PNone) by done.
  by destruct (str_raises limit (dict_get d k PNone)).
Qed.

Lemma filled_stopped (steps : list (option (list Element))) :
  (filled steps).2 = false <-> None ∈ steps.
Proof.
  induction steps as [|[fs|] steps IH]; simpl.
  - split; [done|]. by intros ?%elem_of_nil.
  - destruct (filled steps) as [fs' ok]. simpl in *. rewrite IH.
    rewrite elem_of_cons. split; [by right|]. by intros [?|?].
  - split; [|done]. intros _. apply list_elem_of_here.
Qed.

(** The statements of an enabled call are stopped exactly when [str]
    fails on a switch it is applied to. *)
Lemma property_fill_str_fails (limit : Z) (d : gmap string Scalar) :
  (property_fill limit d).2 = false <-> str_fails limit d.
Proof.
  unfold property_fill. rewrite filled_stopped, !elem_of_cons.
  rewrite list_elem_of_fmap. unfold str_fails. split.
  - intros [?|[Hs|([k t] & Hn & Hkt)]]; [done|..].
    + symmetry in Hs. apply start_fill_None in Hs as [?|?]; auto.
    + right; right. exists k, t. split; [done|].
      by apply (notify_fill_None limit d k t).
  - intros [H|[H|(k & t & Hkt & H)]].
    + right; left. symmetry. apply start_fill_None. by left.
    + right; left. symmetry. apply start_fill_None. by right.
    + right; right. exists (k, t). split; [|done].
      symmetry. by apply notify_fill_None.
Qed.

(** X2: a call can fail in two ways.  It raises [AttributeError] exactly
    when the ['hipchat'] entry is a true value that is not a mapping (it
    has no [get]), before anything is written or logged.  It raises
    [ValueError] exactly when it is enabled and [str] fails on a switch
    it is applied to: [notify-start] holds an integer longer than the
    interpreter's limit, or the string of [notify-start] is empty and
    [start-notify] holds one, or one of the six [notify-*] keys holds
    one; the property is then already attached, with the fields written
    before, and the publisher is not. *)
Theorem X2_what_raises (limit : Z) (data : gmap string Value) (s : Env) :
  ((run_at limit data s).2 = Raise AttributeError <->
   exists v, data_get data "hipchat" = VScalar v /\ truthy v = true)
  /\ ((run_at limit data s).2 = Raise AttributeError ->
      (run_at limit data s).1 = s)
  /\ ((run_at limit data s).2 = Raise ValueError <->
      exists d, data_get data "hipchat" = VDict d /\ enabled d = true
                /\ str_fails limit d)
  /\ ((run_at limit data s).2 = Raise ValueError ->
      exists d, data_get data "hipchat" = VDict d
                /\ doc (run_at limit data s).1
                   = attach "properties" (property_written limit d) (doc s)
                /\ added "publishers" (doc (run_at limit data s).1)
                   = added "publishers" (doc s)).
Proof.
  destruct (run_at_cases limit data s)
    as [(v & Hv & Ht & ->)|[(Hdis & Hfalse & ->)|(d & Hd & He & ->)]]; simpl.
  - split; [split; [by exists v|done]|]. split; [done|].
    split; [split; [done|intros (d & Hd & _); congruence]|done].
  - split.
    { split; [done|]. intros (v & Hv & Ht).
      rewrite (Hfalse v Hv) in Ht. done. }
    split; [done|]. split; [|done]. split; [done|].
    intros (d & Hd & He & _). rewrite (Hdis d Hd) in He. done.
  - unfold enabled_outcome.
    destruct (property_fill limit d).2 eqn:Hok; simpl.
    + split; [split; [done|intros (v & Hv & _); congruence]|].
      split; [done|]. split; [|done]. split; [done|].
      intros (d' & Hd' & _ & Hf). assert (d' = d) as -> by congruence.
      apply property_fill_str_fails in Hf. congruence.
    + split; [split; [done|intros (v & Hv & _); congruence]|].
      split; [done|]. split.
      * split; [|done]. intros _. exists d. split; [done|]. split; [done|].
        by apply property_fill_str_fails.
      * intros _. exists d. split; [done|]. split; [done|].
        by apply added_attach_ne.
Qed.

(** ** The fields of the property *)

Lemma find_child_elem (t : string) (cs : list Element) (c : Element) :
  find_child t cs = Some c -> c ∈ cs /\ tag c = t.
Proof.
  unfold find_child. destruct (find_tag t cs) as [i|] eqn:Hi; [|done].
  destruct (find_tag_Some _ _ _ Hi) as (c' & Hc & Ht). rewrite Hc.
  intros [= <-]. split; [|done]. by eapply list_elem_of_lookup_2.
Qed.

Lemma notify_elems_cases (d : gmap string Scalar) (k t : string) :
  notify_elems d k t = []
  \/ exists v, d !! k = Some v /\ v ≠ PNone
               /\ notify_elems d k t = [text_element t (PStr (lower (str v)))].
Proof.
  unfold notify_elems, dict_get.
  destruct (d !! k) as [[]|]; simpl; try (by left); right; by eexists.
Qed.

(** What holds of the field [startNotification] and of the six
    [notify-*] fields holds of every field after [room]. *)
Lemma Forall_switch_fields (P : Element -> Prop) (d : gmap string Scalar) :
  (start_given d = true ->
   P (text_element "startNotification" (PStr (start_value d)))) ->
  (forall k t v, (k, t) ∈ notify_keys -> d !! k = Some v -> v ≠ PNone ->
                 P (text_element t (PStr (lower (str v))))) ->
  exists cs,
    property_children d
    = text_element "room" (dict_get d "room" (PStr "")) :: cs
    /\ Forall P cs.
Proof.
  intros Hs Hn. eexists. split; [reflexivity|]. apply Forall_app. split.
  - unfold start_elems. destruct (start_given d); [|done].
    constructor; [by apply Hs|done].
  - apply Forall_concat, Forall_fmap, Forall_forall. intros [k t] Hkt. simpl.
    destruct (notify_elems_cases d k t) as [->|(v & Hv & Hne & ->)]; [done|].
    constructor; [by eapply Hn|done].
Qed.

Lemma field_after_room (P : Element -> Prop) (d : gmap string Scalar)
    (cs : list Element) (t : string) (v : Scalar) :
  property_children d
  = text_element "room" (dict_get d "room" (PStr "")) :: cs ->
  Forall P cs ->
  t ≠ "room" ->
  field t (property_block d) = Some v ->
  exists c, P c /\ tag c = t /\ text c = v.
Proof.
  intros Hcs HP Ht. unfold field, property_block. simpl. rewrite Hcs.
  rewrite find_child_cons. simpl tag.
  assert (String.eqb "room" t = false) as -> by (apply String.eqb_neq; congruence).
  destruct (find_child t cs) as [c|] eqn:Hc; [|done]. intros [= <-].
  destruct (find_child_elem _ _ _ Hc) as [Hin Htag].
  exists c. split; [|done]. rewrite Forall_forall in HP. by apply HP.
Qed.

Lemma start_value_not_empty (d : gmap string Scalar) : start_value d ≠ "".
Proof.
  unfold start_value.
  destruct (String.eqb (str_of d "notify-start") "") eqn:E1; simpl.
  - destruct (String.eqb (str_of d "start-notify") "") eqn:E2; simpl; [done|].
    intros H. rewrite <- (lower_empty (str_of d "start-notify")), H in E2.
    done.
  - intros H. rewrite <- (lower_empty (str_of d "notify-start")), H in E1.
    done.
Qed.

(** X3: the fields of the property an enabled call adds come in one
    order, whatever the order of the options: their tags are a
    subsequence of [room], [startNotification], [notifySuccess],
    [notifyAborted], [notifyNotBuilt], [notifyUnstable], [notifyFailure],
    [notifyBackToNormal], beginning with [room]; no field is written
    twice, no other field is written, and every field is a leaf. *)
Theorem X3_fields_in_order (data : gmap string Value)
    (d : gmap string Scalar) (s : Env) :
  data_get data "hipchat" = VDict d ->
  enabled d = true ->
  exists s' blk,
    run data s = (s', Ok tt)
    /\ added "properties" (doc s') = Some blk
    /\ sublist (map tag (children blk)) field_order
    /\ head (map tag (children blk)) = Some "room"
    /\ NoDup (map tag (children blk))
    /\ Forall leaf (children blk)
    /\ (forall t, t ∉ field_order -> field t blk = None).
Proof.
  intros Hd He.
  destruct (run_enabled_added data d s Hd He) as (s' & Hrun & Hp & _).
  exists s', (property_block d). split; [done|]. split; [done|].
  assert (sublist (map tag (children (property_block d))) field_order) as Hsub.
  { simpl. unfold property_children. simpl. apply sublist_skip.
    rewrite !map_app.
    assert (forall k t, sublist (map tag (notify_elems d k t)) [t]) as Hn.
    { intros k t.
      destruct (notify_elems_cases d k t) as [->|(v & _ & _ & ->)];
        [apply sublist_nil_l|done]. }
    apply (sublist_app _ ["startNotification"]).
    { unfold start_elems. destruct (start_given d); [done|apply sublist_nil_l]. }
    repeat (apply (sublist_app _ [_]); [apply Hn|]). done. }
  split; [done|]. split; [done|]. split.
  { eapply sublist_NoDup; [|done]. unfold field_order.
    apply NoDup_ListNoDup. repeat constructor; simpl; intuition discriminate. }
  split.
  { simpl.
    destruct (Forall_switch_fields leaf d) as (cs & -> & Hcs); by constructor. }
  intros t Ht. unfold field.
  destruct (find_child t (children (property_block d))) as [c|] eqn:Hc; [|done].
  destruct (find_child_elem _ _ _ Hc) as [Hin <-]. exfalso. apply Ht.
  eapply elem_of_sublist; [|done]. by apply (list_elem_of_fmap_2 tag).
Qed.

Lemma X3_fields_in_order_witness :
  data_get (job notify_options) "hipchat" = VDict notify_options
  /\ enabled notify_options = true
  /\ exists s' blk,
       run (job notify_options) sectioned_job = (s', Ok tt)
       /\ added "properties" (doc s') = Some blk
       /\ sublist (map tag (children blk)) field_order
       /\ NoDup (map tag (children blk)).
Proof.
  split; [reflexivity|]. split; [reflexivity|].
  destruct (X3_fields_in_order (job notify_options) notify_options
              sectioned_job eq_refl eq_refl)
    as (s' & blk & Hrun & Hadd & Hsub & _ & Hnd & _).
  exists s', blk. split; [exact Hrun|]. split; [exact Hadd|].
  split; [exact Hsub|exact Hnd].
Defined.

(** X4: the field [startNotification], when an enabled call writes it,
    is never empty: an empty string under both keys, or under the only
    one that is set, is written as ["false"]. *)
Theorem X4_startNotification_not_empty (data : gmap string Value)
    (d : gmap string Scalar) (s : Env) :
  data_get data "hipchat" = VDict d ->
  enabled d = true ->
  exists s' blk,
    run data s = (s', Ok tt)
    /\ added "properties" (doc s') = Some blk
    /\ (forall v, field "startNotification" blk = Some v ->
                  exists x, v = PStr x /\ x ≠ "")
    /\ (str_of d "notify-start" = "" -> str_of d "start-notify" = "" ->
        present d "notify-start" \/ present d "start-notify" ->
        field "startNotification" blk = Some (PStr "false")).
Proof.
  intros Hd He.
  destruct (run_enabled_added data d s Hd He) as (s' & Hrun & Hp & _).
  exists s', (property_block d). split; [done|]. split; [done|].
  rewrite field_startNotification. split.
  - intros v. destruct (start_given d); [|done]. intros [= <-].
    eexists. split; [done|]. apply start_value_not_empty.
  - intros H1 H2 Hpr.
    assert (start_given d = true) as -> by (apply start_given_present; tauto).
    unfold start_value. by rewrite H1, H2.
Qed.

Lemma X4_startNotification_not_empty_witness :
  data_get (job empty_string_options) "hipchat"
  = VDict empty_string_options
  /\ enabled empty_string_options = true
  /\ exists s' blk,
       run (job empty_string_options) empty_job = (s', Ok tt)
       /\ added "properties" (doc s') = Some blk
       /\ field "startNotification" blk = Some (PStr "false").
Proof.
  split; [reflexivity|]. split; [reflexivity|].
  destruct (X4_startNotification_not_empty (job empty_string_options)
              empty_string_options empty_job eq_refl eq_refl)
    as (s' & blk & Hrun & Hadd & _ & Hf).
  exists s', blk. split; [exact Hrun|]. split; [exact Hadd|].
  apply Hf; [reflexivity|reflexivity|].
  right. exists (PStr ""). split; [reflexivity|discriminate].
Defined.

Lemma ascii_only_lower (s : string) : ascii_only (lower s) = ascii_only s.
Proof.
  unfold ascii_only. induction s as [|c s IH]; [done|].
  cbn [lower list_ascii_of_string forallb]. rewrite IH. f_equal.
  by destruct c as [[] [] [] [] [] [] [] []].
Qed.

Lemma upper_case_free_lower (s : string) : upper_case_free (lower s) = true.
Proof.
  unfold upper_case_free. induction s as [|c s IH]; [done|].
  cbn [lower list_ascii_of_string forallb]. rewrite IH.
  by destruct c as [[] [] [] [] [] [] [] []].
Qed.

Lemma ascii_only_str_of (d : gmap string Scalar) (k : string) :
  ascii_switches d -> k ∈ switch_keys -> ascii_only (str_of d k) = true.
Proof.
  intros Ha Hk. unfold str_of.
  destruct (d !! k) as [v|] eqn:E; [by apply (Ha k)|done].
Qed.

Lemma start_value_ascii (d : gmap string Scalar) :
  ascii_switches d ->
  ascii_only (start_value d) = true
  /\ upper_case_free (start_value d) = true.
Proof.
  intros Ha. unfold start_value.
  destruct (negb _);
    [|destruct (negb _); [|done]];
    (split; [rewrite ascii_only_lower; apply ascii_only_str_of; [done|];
             unfold switch_keys; repeat constructor
            |apply upper_case_free_lower]).
Qed.

(** X5: when the strings of the switches that are set are ASCII text,
    every field an enabled call writes after [room] holds ASCII text
    with none of the letters [A] to [Z] in it, whatever the case of the
    option's value; [room] alone is written as given. *)
Theorem X5_switch_fields_lower_case (data : gmap string Value)
    (d : gmap string Scalar) (s : Env) :
  data_get data "hipchat" = VDict d ->
  enabled d = true ->
  ascii_switches d ->
  exists s' blk,
    run data s = (s', Ok tt)
    /\ added "properties" (doc s') = Some blk
    /\ (forall t v, t ≠ "room" -> field t blk = Some v ->
                    exists x, v = PStr x
                              /\ ascii_only x = true
                              /\ upper_case_free x = true)
    /\ field "room" blk = Some (dict_get d "room" (PStr "")).
Proof.
  intros Hd He Ha.
  destruct (run_enabled_added data d s Hd He) as (s' & Hrun & Hp & _).
  exists s', (property_block d). split; [done|]. split; [done|].
  split; [|done].
  intros t v Ht Hf.
  destruct (Forall_switch_fields
              (fun c => exists x, text c = PStr x
                                  /\ ascii_only x = true
                                  /\ upper_case_free x = true) d)
    as (cs & Hcs & HP).
  - intros _. eexists. split; [done|]. by apply start_value_ascii.
  - intros k t' v' Hkt Hk _. eexists. split; [done|].
    rewrite ascii_only_lower, upper_case_free_lower. split; [|done].
    by apply (Ha k v' (notify_keys_switch k t' Hkt)).
  - destruct (field_after_room _ d cs t v Hcs HP Ht Hf)
      as (c & (x & Hx & Hl) & _ & <-). by exists x.
Qed.

Lemma ascii_switches_shouting_options : ascii_switches shouting_options.
Proof.
  intros k v Hk. unfold switch_keys in Hk.
  rewrite !elem_of_cons, elem_of_nil in Hk.
  destruct Hk as [->|[->|[->|[->|[->|[->|[->|[->|[]]]]]]]]]; intros H;
    vm_compute in H; try discriminate H; by injection H as <-.
Qed.

Lemma X5_switch_fields_lower_case_witness :
  data_get (job shouting_options) "hipchat" = VDict shouting_options
  /\ enabled shouting_options = true
  /\ ascii_switches shouting_options
  /\ exists s' blk,
       run (job shouting_options) empty_job = (s', Ok tt)
       /\ added "properties" (doc s') = Some blk
       /\ field "room" blk = Some (PStr "Dev")
       /\ field "startNotification" blk = Some (PStr "true")
       /\ field "notifyFailure" blk = Some (PStr "yes").
Proof.
  split; [reflexivity|]. split; [reflexivity|].
  split; [exact ascii_switches_shouting_options|].
  destruct (X5_switch_fields_lower_case (job shouting_options)
              shouting_options empty_job eq_refl eq_refl
              ascii_switches_shouting_options)
    as (s' & blk & Hrun & Hadd & _ & Hroom).
  exists s', blk. split; [exact Hrun|]. split; [exact Hadd|].
  split; [exact Hroom|].
  vm_compute in Hrun. injection Hrun as <-.
  vm_compute in Hadd. injection Hadd as <-.
  split; reflexivity.
Defined.

Lemma start_value_boolean (d : gmap string Scalar) :
  boolean_switches d -> start_value d = "true" \/ start_value d = "false".
Proof.
  intros Hb. unfold start_value, str_of.
  assert ("notify-start" ∈ switch_keys) as Hns
    by (unfold switch_keys; repeat constructor).
  assert ("start-notify" ∈ switch_keys) as Hsn
    by (unfold switch_keys; repeat constructor).
  destruct (d !! "notify-start") as [v|] eqn:E1.
  - destruct (Hb _ v Hns E1) as [[] ->]; simpl; auto.
  - simpl. destruct (d !! "start-notify") as [v|] eqn:E2; [|by right].
    destruct (Hb _ v Hsn E2) as [[] ->]; simpl; auto.
Qed.

(** X6: when every switch that is set is set to a boolean, every field
    an enabled call writes after [room] holds ["true"] or ["false"]. *)
Theorem X6_boolean_fields (data : gmap string Value)
    (d : gmap string Scalar) (s : Env) :
  data_get data "hipchat" = VDict d ->
  enabled d = true ->
  boolean_switches d ->
  exists s' blk,
    run data s = (s', Ok tt)
    /\ added "properties" (doc s') = Some blk
    /\ forall t v, t ≠ "room" -> field t blk = Some v ->
                   v = PStr "true" \/ v = PStr "false".
Proof.
  intros Hd He Hb.
  destruct (run_enabled_added data d s Hd He) as (s' & Hrun & Hp & _).
  exists s', (property_block d). split; [done|]. split; [done|].
  intros t v Ht Hf.
  destruct (Forall_switch_fields
              (fun c => text c = PStr "true" \/ text c = PStr "false") d)
    as (cs & Hcs & HP).
  - intros _. simpl. destruct (start_value_boolean d Hb) as [-> | ->]; auto.
  - intros k t' v' Hkt Hk _. simpl.
    destruct (Hb k v' (notify_keys_switch k t' Hkt) Hk) as [[] ->]; auto.
  - destruct (field_after_room _ d cs t v Hcs HP Ht Hf) as (c & Hc & _ & <-).
    done.
Qed.

Lemma boolean_switches_notify_options : boolean_switches notify_options.
Proof.
  intros k v Hk. unfold switch_keys in Hk.
  rewrite !elem_of_cons, elem_of_nil in Hk.
  destruct Hk as [->|[->|[->|[->|[->|[->|[->|[->|[]]]]]]]]]; intros H;
    vm_compute in H; try discriminate H; injection H as <-; by eexists.
Qed.

Lemma X6_boolean_fields_witness :
  data_get (job notify_options) "hipchat" = VDict notify_options
  /\ enabled notify_options = true
  /\ boolean_switches notify_options
  /\ exists s' blk,
       run (job notify_options) empty_job = (s', Ok tt)
       /\ added "properties" (doc s') = Some blk
       /\ forall t v, t ≠ "room" -> field t blk = Some v ->
                      v = PStr "true" \/ v = PStr "false".
Proof.
  split; [reflexivity|]. split; [reflexivity|].
  split; [exact boolean_switches_notify_options|].
  apply (X6_boolean_fields (job notify_options) notify_options empty_job);
    [reflexivity|reflexivity|exact boolean_switches_notify_options].
Defined.

(** ** The options that are read *)

Lemma options_agree (d d' : gmap string Scalar) :
  (forall k, k ∈ option_keys -> d !! k = d' !! k) ->
  property_block d = property_block d'
  /\ warnings d = warnings d'
  /\ dict_get d "enabled" (PBool true) = dict_get d' "enabled" (PBool true).
Proof.
  intros H.
  assert (forall k, k ∈ option_keys -> forall x, dict_get d k x = dict_get d' k x)
    as Hg by (intros k Hk x; unfold dict_get; by rewrite (H k Hk)).
  assert (forall k, k ∈ option_keys -> str_of d k = str_of d' k)
    as Hs by (intros k Hk; unfold str_of; by rewrite (H k Hk)).
  unfold property_block, property_children, start_elems, start_given,
    start_value, notify_elems, warnings. simpl.
  rewrite !(Hg "room"), !(Hg "start-notify"), !(Hg "notify-start"),
    !(Hg "notify-success"), !(Hg "notify-aborted"), !(Hg "notify-not-built"),
    !(Hg "notify-unstable"), !(Hg "notify-failure"),
    !(Hg "notify-back-to-normal"), !(Hg "enabled"),
    !(Hs "start-notify"), !(Hs "notify-start")
    by (unfold option_keys; repeat constructor).
  done.
Qed.

(** X7: the call reads ten keys of the options and no other: two
    non-empty mappings of options that agree on these keys give the same
    tree, the same log and the same result, whatever else they hold and
    whatever else the job description holds. *)
Theorem X7_other_keys_ignored (data data' : gmap string Value)
    (d d' : gmap string Scalar) (s : Env) :
  data_get data "hipchat" = VDict d ->
  data_get data' "hipchat" = VDict d' ->
  d ≠ ∅ -> d' ≠ ∅ ->
  (forall k, k ∈ option_keys -> d !! k = d' !! k) ->
  run data s = run data' s.
Proof.
  intros Hd Hd' Hne Hne' H.
  destruct (options_agree d d' H) as (Hp & Hw & He).
  assert (enabled d = enabled d') as Hen.
  { unfold enabled. rewrite He. f_equal. f_equal.
    by rewrite !bool_decide_eq_false_2. }
  destruct (enabled d) eqn:E.
  - rewrite (gen_xml_enabled data d s Hd E).
    rewrite (gen_xml_enabled data' d' s Hd' (eq_sym Hen)).
    by rewrite Hp, Hw.
  - rewrite (gen_xml_disabled data d s Hd E).
    by rewrite (gen_xml_disabled data' d' s Hd' (eq_sym Hen)).
Qed.

Lemma X7_other_keys_ignored_witness :
  run (job (<["colour" := PStr "red"]> notify_options)) empty_job
  = run (job notify_options) empty_job.
Proof.
  apply (X7_other_keys_ignored _ _
           (<["colour" := PStr "red"]> notify_options) notify_options);
    [reflexivity | reflexivity | apply insert_non_empty
    | apply insert_non_empty |].
  intros k Hk. apply lookup_insert_ne. intros <-.
  unfold option_keys in Hk. rewrite !elem_of_cons, elem_of_nil in Hk.
  repeat (destruct Hk as [Hk|Hk]; [discriminate Hk|]). exact Hk.
Defined.

(** X8: a mapping that is not empty enables the call even when it holds
    none of the ten keys (a misspelt key is enough): the property is
    added with an empty [room] and no other field, the publisher is
    added, and nothing is logged. *)
Theorem X8_unknown_keys_enable (data : gmap string Value)
    (d : gmap string Scalar) (s : Env) :
  data_get data "hipchat" = VDict d ->
  d ≠ ∅ ->
  (forall k, k ∈ option_keys -> d !! k = None) ->
  exists s' blk,
    run data s = (s', Ok tt)
    /\ added "properties" (doc s') = Some blk
    /\ children blk = [text_element "room" (PStr "")]
    /\ added "publishers" (doc s') = Some publisher_block
    /\ log s' = log s.
Proof.
  intros Hd Hne H.
  destruct (options_agree d ∅) as (Hp & Hw & He).
  { intros k Hk. by rewrite (H k Hk), lookup_empty. }
  assert (enabled d = true) as Hen.
  { unfold enabled. rewrite He. by rewrite bool_decide_eq_false_2. }
  destruct (run_enabled_added data d s Hd Hen) as (s' & Hrun & Hadd & Hpub).
  exists s', (property_block d). split; [done|]. split; [done|].
  split; [by rewrite Hp|]. split; [done|].
  rewrite (gen_xml_enabled data d s Hd Hen) in Hrun. injection Hrun as <-.
  simpl. rewrite Hw. apply app_nil_r.
Qed.

Lemma X8_unknown_keys_enable_witness :
  data_get (job unknown_options) "hipchat" = VDict unknown_options
  /\ unknown_options ≠ ∅
  /\ exists s' blk,
       run (job unknown_options) empty_job = (s', Ok tt)
       /\ added "properties" (doc s') = Some blk
       /\ children blk = [text_element "room" (PStr "")]
       /\ added "publishers" (doc s') = Some publisher_block
       /\ log s' = log empty_job.
Proof.
  split; [reflexivity|]. split; [apply map_non_empty_singleton|].
  apply (X8_unknown_keys_enable (job unknown_options) unknown_options
           empty_job); [reflexivity | apply map_non_empty_singleton |].
  intros k Hk. apply lookup_singleton_ne. intros <-.
  unfold option_keys in Hk. rewrite !elem_of_cons, elem_of_nil in Hk.
  repeat (destruct Hk as [Hk|Hk]; [discriminate Hk|]). exact Hk.
Defined.

(** ** The sections after a call *)







(** ** The rest of the tree *)

Lemma lookup_attach_other (sec : string) (blk e c : Element) (j : nat) :
  find_tag sec (children e) ≠ Some j ->
  children e !! j = Some c ->
  children (attach sec blk e) !! j = Some c.
Proof.
  intros Hj Hc. unfold attach.
  destruct (find_tag sec (children e)) as [i|]; simpl.
  - rewrite list_lookup_alter_ne; [done|]. congruence.
  - by apply lookup_app_l_Some.
Qed.

(** X10: an enabled call touches two children of the root at most, the
    first properties section and the first publishers section: every
    other child of the root (a second section with one of these tags
    included) is after the call exactly what it was, at the same place,
    and the root keeps its tag, attributes, text and tail. *)
Theorem X10_other_children_untouched (data : gmap string Value)
    (d : gmap string Scalar) (s : Env) :
  data_get data "hipchat" = VDict d ->
  enabled d = true ->
  exists s',
    run data s = (s', Ok tt)
    /\ tag (doc s') = tag (doc s)
    /\ attrib (doc s') = attrib (doc s)
    /\ text (doc s') = text (doc s)
    /\ tail (doc s') = tail (doc s)
    /\ forall j c,
         children (doc s) !! j = Some c ->
         find_tag "properties" (children (doc s)) ≠ Some j ->
         find_tag "publishers" (children (doc s)) ≠ Some j ->
         children (doc s') !! j = Some c.
Proof.
  intros Hd He. eexists. split; [by apply gen_xml_enabled|]. simpl.
  assert (forall sec blk e,
            tag (attach sec blk e) = tag e
            /\ attrib (attach sec blk e) = attrib e
            /\ text (attach sec blk e) = text e
            /\ tail (attach sec blk e) = tail e) as Hroot.
  { intros sec blk e. unfold attach. by destruct (find_tag sec (children e)). }
  destruct (Hroot "publishers" publisher_block
              (attach "properties" (property_block d) (doc s)))
    as (-> & -> & -> & ->).
  destruct (Hroot "properties" (property_block d) (doc s))
    as (-> & -> & -> & ->).
  repeat split. intros j c Hc Hp Hq.
  apply lookup_attach_other.
  - by rewrite find_tag_attach_ne.
  - by apply lookup_attach_other.
Qed.

Lemma X10_other_children_untouched_witness :
  data_get (job notify_options) "hipchat" = VDict notify_options
  /\ enabled notify_options = true
  /\ exists s',
       run (job notify_options) sectioned_job = (s', Ok tt)
       /\ children (doc s') !! 2%nat = Some (new_element "scm").
Proof.
  split; [reflexivity|]. split; [reflexivity|].
  destruct (X10_other_children_untouched (job notify_options) notify_options
              sectioned_job eq_refl eq_refl)
    as (s' & Hrun & _ & _ & _ & _ & Hj).
  exists s'. split; [exact Hrun|].
  apply Hj; [reflexivity | vm_compute; discriminate | vm_compute; discriminate].
Defined.



(** ** A null under [notify-start] *)

(** X12: a YAML null under [notify-start] is not a value for the test
    that decides whether [startNotification] is written, but it is one
    for the text: alone it writes no field, and beside a [start-notify]
    that is set it writes ["none"], whatever [start-notify] holds. *)
Theorem X12_null_notify_start (data : gmap string Value)
    (d : gmap string Scalar) (s : Env) :
  data_get data "hipchat" = VDict d ->
  enabled d = true ->
  d !! "notify-start" = Some PNone ->
  exists s' blk,
    run data s = (s', Ok tt)
    /\ added "properties" (doc s') = Some blk
    /\ (present d "start-notify" ->
        field "startNotification" blk = Some (PStr "none"))
    /\ (~ present d "start-notify" ->
        field "startNotification" blk = None).
Proof.
  intros Hd He Hns.
  destruct (run_enabled_added data d s Hd He) as (s' & Hrun & Hp & _).
  exists s', (property_block d). split; [done|]. split; [done|].
  rewrite field_startNotification. split.
  - intros Hsn.
    assert (start_given d = true) as -> by (apply start_given_present; tauto).
    unfold start_value, str_of. by rewrite Hns.
  - intros Hsn. destruct (start_given d) eqn:E; [|done].
    apply start_given_present in E as [E|(v & Hv & Hne)]; [done|].
    congruence.
Qed.

Lemma X12_null_notify_start_witness :
  data_get (job null_start_options) "hipchat" = VDict null_start_options
  /\ enabled null_start_options = true
  /\ null_start_options !! "notify-start" = Some PNone
  /\ exists s' blk,
       run (job null_start_options) empty_job = (s', Ok tt)
       /\ added "properties" (doc s') = Some blk
       /\ field "startNotification" blk = Some (PStr "none").
Proof.
  split; [reflexivity|]. split; [reflexivity|]. split; [reflexivity|].
  destruct (X12_null_notify_start (job null_start_options) null_start_options
              empty_job eq_refl eq_refl eq_refl)
    as (s' & blk & Hrun & Hadd & Hf & _).
  exists s', blk. split; [exact Hrun|]. split; [exact Hadd|].
  apply Hf. exists (PBool true). split; [reflexivity|discriminate].
Defined.
